(** * Deepstack face integration: a shallow embedding of
    [custom_components/deepstack_face/image_processing.py]

    The module is glue between a home-automation host and the Deepstack
    face service.  Pure helpers ([get_valid_filename], [parse_faces]) are
    embedded as functions; the methods of [FaceClassifyEntity] are
    embedded with explicit state passing, a trace of the effects they
    perform and an outcome that records a raised exception. *)

From Stdlib Require Import ZArith NArith Floats SpecFloat Lia.
From Stdlib.Strings Require Import Byte.
From stdpp Require Import gmap strings list.

Set Warnings "-inexact-float".

(** ** Python [str]: sequences of Unicode code points *)

Module PyStr.

(** A character is its code point. *)
Definition char := N.
Definition str := list char.

(** Literals of the source are written as Rocq strings and read
    byte by byte; all of them are ASCII. *)
Definition u (s : string) : str :=
  List.map Ascii.N_of_ascii (String.list_ascii_of_string s).

Definition is_ascii (c : char) : bool := (c <? 128)%N.

Definition in_range (lo hi c : N) : bool := ((lo <=? c) && (c <=? hi))%N.

(** [Py_UNICODE_ISSPACE]: the characters [str.strip()] removes.  The
    list is the whole of the Unicode White_Space / bidirectional
    WS, B, S classification CPython ships. *)
Definition isspace (c : char) : bool :=
  in_range 9 13 c || in_range 28 32 c
  || (c =? 133)%N || (c =? 160)%N || (c =? 5760)%N
  || in_range 8192 8202 c || (c =? 8232)%N || (c =? 8233)%N
  || (c =? 8239)%N || (c =? 8287)%N || (c =? 12288)%N.

Definition ascii_isalnum (c : char) : bool :=
  in_range 48 57 c || in_range 65 90 c || in_range 97 122 c.

Definition ascii_lower (c : char) : char :=
  if in_range 65 90 c then (c + 32)%N else c.

Section Unicode.
(** The Unicode character database is data of the interpreter, not of
    this repository: its answers outside ASCII are parameters. *)
Variable unicode_isalnum : char -> bool.   (* [str.isalnum] on one char *)
Variable unicode_lower : str -> str.       (* [str.lower] on a non-ASCII str *)

Definition isalnum (c : char) : bool :=
  if is_ascii c then ascii_isalnum c else unicode_isalnum c.

(** [\w] of a [str] pattern: alphanumeric or the underscore. *)
Definition is_word (c : char) : bool := isalnum c || (c =? 95)%N.

(** [str.lower()]: CPython maps ASCII strings bytewise and sends
    everything else through the case tables. *)
Definition lower (s : str) : str :=
  if forallb is_ascii s then List.map ascii_lower s else unicode_lower s.

(** [str.strip()] with no argument. *)
Fixpoint lstrip (s : str) : str :=
  match s with
  | c :: s' => if isspace c then lstrip s' else s
  | [] => []
  end.

Definition rstrip (s : str) : str := rev (lstrip (rev s)).

Definition strip (s : str) : str := rstrip (lstrip s).

(** [str.replace(old, new)] for one-character [old] and [new]. *)
Definition replace (old new : char) (s : str) : str :=
  List.map (fun c => if (c =? old)%N then new else c) s.

(** A character class of the [re] module, as far as the source uses
    it: literal characters and [\w]. *)
Inductive class_item := Lit (c : char) | Word.

Definition item_matches (i : class_item) (c : char) : bool :=
  match i with
  | Lit c' => (c =? c')%N
  | Word => is_word c
  end.

Definition class_matches (items : list class_item) (c : char) : bool :=
  existsb (fun i => item_matches i c) items.

(** [re.sub] of the negated class [[^items]] with the empty string as
    replacement: every character the negated class matches goes. *)
Definition re_sub_negclass_empty (items : list class_item) (s : str) : str :=
  List.filter (class_matches items) s.

End Unicode.

End PyStr.

Import PyStr.

Section Sanitizer.
Variable unicode_isalnum : char -> bool.

(** The class of [r"(?u)[^-\w.]"]: hyphen, word characters, dot. *)
Definition filename_class : list class_item := [Lit 45%N; Word; Lit 46%N].

(** [get_valid_filename]: [str(name)] is stripped, its spaces are
    replaced by underscores, and [re.sub] deletes what the pattern
    [(?u)[^-\w.]] matches. *)
Definition get_valid_filename (name : str) : str :=
  re_sub_negclass_empty unicode_isalnum filename_class
    (replace 32%N 95%N (strip name)).

(** The sanitizer as the specification words it: spaces become
    underscores, then everything that is not a word character, a
    hyphen or a dot is removed. *)
Definition sanitize_as_specified (name : str) : str :=
  List.filter (fun c => is_word unicode_isalnum c || (c =? 45)%N || (c =? 46)%N)
    (List.map (fun c => if (c =? 32)%N then 95%N else c) name).

End Sanitizer.

(** ** Python [float]: binary64 *)

Module PyFloat.

(** Nearest integer to [num / den] for [0 < den], ties to even. *)
Definition div_half_even (num den : Z) : Z :=
  let q := (num / den)%Z in
  let r := (num mod den)%Z in
  match (2 * r ?= den)%Z with
  | Lt => q
  | Gt => (q + 1)%Z
  | Eq => if Z.even q then q else (q + 1)%Z
  end.

(** Above this many digits [float.__round__] returns its argument. *)
Definition NDIGITS_MAX : Z := 323.

(** [round(x, ndigits)] for a float [x] and [0 <= ndigits].  CPython
    prints [x] correctly rounded (ties to even) to [ndigits] places
    after the point and reads the decimal back, correctly rounded to
    binary64.  Here: [|x| = m * 2^e], the decimal is [n / 10^ndigits]
    with [n] the nearest integer to [|x| * 10^ndigits], and the
    division rounds to nearest even.  Zeros, infinities and NaN round
    to themselves. *)
Definition round (x : float) (ndigits : N) : float :=
  match Prim2SF x with
  | S754_finite s m e =>
      if (NDIGITS_MAX <? Z.of_N ndigits)%Z then x
      else
        let p := (10 ^ Z.of_N ndigits)%Z in
        let num := if (e <? 0)%Z then (Z.pos m * p)%Z else (Z.pos m * 2 ^ e * p)%Z in
        let den := if (e <? 0)%Z then (2 ^ (- e))%Z else 1%Z in
        match div_half_even num den with
        | Z.pos n =>
            SF2Prim (SFdiv prec emax (S754_finite s n 0)
                                     (S754_finite false (Z.to_pos p) 0))
        | _ => SF2Prim (S754_zero s)
        end
  | _ => x
  end.

End PyFloat.

(** ** Response parsing *)

(** A face record of the Deepstack response, with the two fields the
    module reads.  Every record carries ["confidence"]; ["userid"] is
    there in recognise mode only, which is what
    [if not "userid" in entry.keys()] tests. *)
Module Prediction.
Record t := mk { userid : option str; confidence : float }.
End Prediction.

(** A face as handed to the host: [{"name": ..., "confidence": ...}]. *)
Module Face.
Record t := mk { name : str; confidence : float }.
End Face.

(** The loop of [parse_faces]; [faces] is the list built so far. *)
Fixpoint parse_faces_loop (predictions : list Prediction.t) (faces : list Face.t)
  : list Face.t :=
  match predictions with
  | [] => faces
  | entry :: predictions' =>
      match Prediction.userid entry with
      | None => faces                                    (* break *)
      | Some userid =>
          if decide (userid = u "unknown")
          then parse_faces_loop predictions' faces       (* continue *)
          else
            let face :=
              Face.mk userid
                (PyFloat.round (100 * Prediction.confidence entry)%float 2) in
            parse_faces_loop predictions' (faces ++ [face])
      end
  end.

Definition parse_faces (predictions : list Prediction.t) : list Face.t :=
  parse_faces_loop predictions [].

(** ** Exceptions and name resolution *)

Inductive exc_class :=
| BaseException | Exception_ | NameError | AttributeError | TypeError | IndexError
| OSError | FileNotFoundError | PermissionError
| UnidentifiedImageError      (* PIL.UnidentifiedImageError, an OSError *)
| DeepstackException          (* deepstack.core.DeepstackException *)
| RequestException.           (* requests.exceptions.RequestException, an OSError *)

Global Instance exc_class_eq_dec : EqDecision exc_class.
Proof. solve_decision. Defined.

(** The direct base of a class. *)
Definition base (c : exc_class) : option exc_class :=
  match c with
  | BaseException => None
  | Exception_ => Some BaseException
  | NameError | AttributeError | TypeError | IndexError | OSError
  | DeepstackException => Some Exception_
  | FileNotFoundError | PermissionError | UnidentifiedImageError
  | RequestException => Some OSError
  end.

(** [issubclass c d]; the hierarchy is three levels deep. *)
Definition issubclass (c d : exc_class) : bool :=
  let up x := x ≫= base in
  bool_decide (Some c = Some d)
  || bool_decide (up (Some c) = Some d)
  || bool_decide (up (up (Some c)) = Some d)
  || bool_decide (up (up (up (Some c))) = Some d).

Record exn := Exn { exn_class : exc_class; exn_arg : str }.

(** What a module-level name can be bound to, as far as [except]
    clauses care. *)
Inductive pyvalue :=
| PyModule (dotted : string)
| PyClass (c : exc_class)
| PyOther.

Definition namespace := list (string * pyvalue).

Fixpoint ns_lookup (ns : namespace) (n : string) : option pyvalue :=
  match ns with
  | [] => None
  | (k, v) :: ns' => if decide (k = n) then Some v else ns_lookup ns' n
  end.

(** The names the module binds at top level: its imports (lines 7-35),
    its constants, functions and class. *)
Definition module_globals : namespace :=
  [ ("io", PyModule "io"); ("logging", PyModule "logging");
    ("re", PyModule "re"); ("time", PyModule "time"); ("Path", PyOther);
    ("requests", PyModule "requests");
    ("Image", PyModule "PIL.Image"); ("ImageDraw", PyModule "PIL.ImageDraw");
    ("ds", PyModule "deepstack.core");
    ("cv", PyModule "homeassistant.helpers.config_validation");
    ("dt_util", PyModule "homeassistant.util.dt");
    ("vol", PyModule "voluptuous");
    ("ATTR_CONFIDENCE", PyOther); ("CONF_ENTITY_ID", PyOther);
    ("CONF_NAME", PyOther); ("CONF_SOURCE", PyOther); ("DOMAIN", PyOther);
    ("PLATFORM_SCHEMA", PyOther); ("ImageProcessingFaceEntity", PyOther);
    ("ATTR_ENTITY_ID", PyOther); ("ATTR_NAME", PyOther);
    ("CONF_IP_ADDRESS", PyOther); ("CONF_PORT", PyOther);
    ("split_entity_id", PyOther); ("_LOGGER", PyOther);
    ("CONF_API_KEY", PyOther); ("CONF_TIMEOUT", PyOther);
    ("CONF_DETECT_ONLY", PyOther); ("CONF_SAVE_FILE_FOLDER", PyOther);
    ("CONF_SAVE_TIMESTAMPTED_FILE", PyOther); ("DATETIME_FORMAT", PyOther);
    ("DEFAULT_API_KEY", PyOther); ("DEFAULT_TIMEOUT", PyOther);
    ("CLASSIFIER", PyOther); ("DATA_DEEPSTACK", PyOther);
    ("FILE_PATH", PyOther); ("SERVICE_TEACH_FACE", PyOther);
    ("SERVICE_TEACH_SCHEMA", PyOther); ("get_valid_filename", PyOther);
    ("parse_faces", PyOther); ("setup_platform", PyOther);
    ("FaceClassifyEntity", PyOther) ].

(** The builtin names of the exception classes above.  Python has more
    builtins; none of them is called [UnidentifiedImageError], which
    lives in the [PIL] package. *)
Definition builtins : namespace :=
  [ ("BaseException", PyClass BaseException); ("Exception", PyClass Exception_);
    ("NameError", PyClass NameError); ("AttributeError", PyClass AttributeError);
    ("TypeError", PyClass TypeError);
    ("IndexError", PyClass IndexError); ("OSError", PyClass OSError);
    ("IOError", PyClass OSError); ("EnvironmentError", PyClass OSError);
    ("FileNotFoundError", PyClass FileNotFoundError);
    ("PermissionError", PyClass PermissionError) ].

(** Attributes of the imported modules that name exception classes. *)
Definition module_attr (dotted attr : string) : option pyvalue :=
  if decide (dotted = "deepstack.core" ∧ attr = "DeepstackException")
  then Some (PyClass DeepstackException)
  else if decide (dotted = "PIL" ∧ attr = "UnidentifiedImageError")
  then Some (PyClass UnidentifiedImageError)
  else None.

(** The expression after [except]. *)
Inductive handler_expr :=
| Name (n : string)
| Attr (n attr : string).

(** Evaluating a name: module globals, then builtins, else [NameError]. *)
Definition eval_name (globals : namespace) (n : string) : exn + pyvalue :=
  match ns_lookup globals n with
  | Some v => inr v
  | None =>
      match ns_lookup builtins n with
      | Some v => inr v
      | None => inl (Exn NameError (u n))
      end
  end.

Definition eval_handler (globals : namespace) (h : handler_expr) : exn + pyvalue :=
  match h with
  | Name n => eval_name globals n
  | Attr n attr =>
      match eval_name globals n with
      | inl e => inl e
      | inr (PyModule dotted) =>
          match module_attr dotted attr with
          | Some v => inr v
          | None => inl (Exn AttributeError (u attr))
          end
      | inr _ => inl (Exn TypeError (u attr))
      end
  end.

(** Does [except h] catch [raised]?  The clause's expression is
    evaluated when an exception reaches it, and that evaluation can
    itself raise. *)
Definition except_matches (globals : namespace) (h : handler_expr) (raised : exn)
  : exn + bool :=
  match eval_handler globals h with
  | inl e => inl e
  | inr (PyClass c) => inr (issubclass (exn_class raised) c)
  | inr _ => inl (Exn TypeError (u "catching classes that do not inherit from BaseException is not allowed"))
  end.

(** ** Time stamps *)

(** The calendar of Python's [datetime]. *)
Definition is_leap (y : N) : bool :=
  ((y mod 4 =? 0) && negb (y mod 100 =? 0) || (y mod 400 =? 0))%N.

Definition days_in_month (y m : N) : N :=
  if (m =? 2)%N then (if is_leap y then 29 else 28)%N
  else if ((m =? 4) || (m =? 6) || (m =? 9) || (m =? 11))%N then 30%N
  else 31%N.

(** The fields a [datetime] object can have: a year from [MINYEAR] to
    [MAXYEAR], a day of that month, a time of day. *)
Definition valid_datetime (y mo d h mi s : N) : bool :=
  in_range 1 9999 y && in_range 1 12 mo && in_range 1 (days_in_month y mo) d
  && (h <? 24)%N && (mi <? 60)%N && (s <? 60)%N.

(** A [datetime], with the fields [strftime] reads; no other values
    exist. *)
Record datetime := {
  year : N; month : N; day : N; hour : N; minute : N; second : N;
  datetime_valid : valid_datetime year month day hour minute second = true
}.

Definition DATETIME_FORMAT : str := u "%Y-%m-%d_%H-%M-%S".

(** Decimal digits.  The C library pads month, day, hour, minute and
    second to two digits; it prints the year as it is, without padding,
    so a year before 1000 has fewer than four digits. *)
Definition digit (n : N) : char := (48 + n mod 10)%N.
Definition pad2 (n : N) : str := [digit (n / 10); digit n].
Definition pad4 (n : N) : str := [digit (n / 1000); digit (n / 100); digit (n / 10); digit n].

(** The decimal numeral of a number below 10000, which a year is. *)
Definition decimal (n : N) : str :=
  if (n <? 10)%N then [digit n]
  else if (n <? 100)%N then [digit (n / 10); digit n]
  else if (n <? 1000)%N then [digit (n / 100); digit (n / 10); digit n]
  else pad4 n.

(** The directives of [DATETIME_FORMAT]; others are passed through. *)
Definition directive (dt : datetime) (d : char) : str :=
  if decide (d = 89%N) then decimal (year dt)       (* %Y *)
  else if decide (d = 109%N) then pad2 (month dt)   (* %m *)
  else if decide (d = 100%N) then pad2 (day dt)     (* %d *)
  else if decide (d = 72%N) then pad2 (hour dt)     (* %H *)
  else if decide (d = 77%N) then pad2 (minute dt)   (* %M *)
  else if decide (d = 83%N) then pad2 (second dt)   (* %S *)
  else [37%N; d].

Fixpoint strftime (dt : datetime) (format : str) : str :=
  match format with
  | [] => []
  | c :: format' =>
      if decide (c = 37%N) then
        match format' with
        | d :: format'' => directive dt d ++ strftime dt format''
        | [] => [c]
        end
      else c :: strftime dt format'
  end.

(** ** Paths *)

(** A [pathlib.Path], kept as the program builds it: the string given to
    [Path(...)] and the operands of [/] applied to it. *)
Inductive Path :=
| PathOf (s : str)
| PathJoin (p : Path) (s : str).

Notation "p // s" := (PathJoin p s) (at level 40, left associativity).

(** ** The adapter *)

Definition bytes := list byte.

(** The client object [ds.DeepstackFace(ip_address, port, api_key, timeout)]. *)
Record DeepstackFace := {
  ip_address : str; port : Z; api_key : str; timeout : Z
}.

Record FaceClassifyEntity := {
  entity_id : option str;           (* given by the host when the entity is added *)
  _dsface : DeepstackFace;
  _detect_only : bool;
  _last_detection : option str;
  _save_file_folder : option Path;
  _save_timestamped_file : bool;
  _camera : str;
  _name : str;
  _faces : list Prediction.t;
  _matched : gmap str float;
  total_faces : option nat
}.

Definition set_faces (v : list Prediction.t) (self : FaceClassifyEntity) :=
  {| entity_id := entity_id self; _dsface := _dsface self;
     _detect_only := _detect_only self; _last_detection := _last_detection self;
     _save_file_folder := _save_file_folder self;
     _save_timestamped_file := _save_timestamped_file self;
     _camera := _camera self; _name := _name self;
     _faces := v; _matched := _matched self; total_faces := total_faces self |}.

Definition set_matched (v : gmap str float) (self : FaceClassifyEntity) :=
  {| entity_id := entity_id self; _dsface := _dsface self;
     _detect_only := _detect_only self; _last_detection := _last_detection self;
     _save_file_folder := _save_file_folder self;
     _save_timestamped_file := _save_timestamped_file self;
     _camera := _camera self; _name := _name self;
     _faces := _faces self; _matched := v; total_faces := total_faces self |}.

Definition set_total_faces (v : option nat) (self : FaceClassifyEntity) :=
  {| entity_id := entity_id self; _dsface := _dsface self;
     _detect_only := _detect_only self; _last_detection := _last_detection self;
     _save_file_folder := _save_file_folder self;
     _save_timestamped_file := _save_timestamped_file self;
     _camera := _camera self; _name := _name self;
     _faces := _faces self; _matched := _matched self; total_faces := v |}.

Definition set_last_detection (v : option str) (self : FaceClassifyEntity) :=
  {| entity_id := entity_id self; _dsface := _dsface self;
     _detect_only := _detect_only self; _last_detection := v;
     _save_file_folder := _save_file_folder self;
     _save_timestamped_file := _save_timestamped_file self;
     _camera := _camera self; _name := _name self;
     _faces := _faces self; _matched := _matched self;
     total_faces := total_faces self |}.

(** ** Effects *)

Inductive log_level := INFO | WARNING | ERROR.

Inductive log_arg :=
| NoArg
| ArgStr (s : str)
| ArgExn (e : exn)
| ArgPath (p : Path).

(** What a method does to the world outside the adapter, in order. *)
Inductive event :=
| EvDetect (client : DeepstackFace) (image : bytes)       (* POST, face detection *)
| EvRecognise (client : DeepstackFace) (image : bytes)    (* POST, face recognition *)
| EvRegisterFace (client : DeepstackFace) (name : str) (image : bytes)
                                                          (* POST, face registration *)
| EvProcessFaces (faces : list Face.t) (total : option nat)
                                    (* host: fire image_processing.detect_face *)
| EvOpen (file_path : str)                                (* open(file_path, "rb") *)
| EvSave (p : Path)                                       (* img.save(p) wrote p *)
| EvLog (level : log_level) (format : string) (arg : log_arg)
| EvTeach (classifier : FaceClassifyEntity) (name file_path : str).
                                                          (* classifier.teach entered *)

Inductive outcome (A : Type) :=
| Returned (a : A)
| Raised (e : exn).
Arguments Returned {A} a.
Arguments Raised {A} e.

(** A computation: the trace it leaves and how it ends. *)
Definition Eff (A : Type) : Type := list event * outcome A.

Global Instance Eff_ret : MRet Eff := λ A a, ([], Returned a).

Global Instance Eff_bind : MBind Eff := λ A B k m,
  match m with
  | (tr, Returned a) => let '(tr', r) := k a in (tr ++ tr', r)
  | (tr, Raised e) => (tr, Raised e)
  end.

Definition emit (ev : event) : Eff unit := ([ev], Returned tt).
Definition raise {A} (e : exn) : Eff A := ([], Raised e).
Definition log (level : log_level) (format : string) (arg : log_arg) : Eff unit :=
  emit (EvLog level format arg).

(** [for x in xs: body(x)] *)
Fixpoint for_each {A} (xs : list A) (body : A → Eff unit) : Eff unit :=
  match xs with
  | [] => mret tt
  | x :: xs' => body x ;; for_each xs' body
  end.

Definition trace {A} (m : Eff A) : list event := fst m.
Definition result {A} (m : Eff A) : outcome A := snd m.

(** Everything outside the module that one call can observe: the
    Deepstack service, the clock, PIL, the file system and the host's
    path policy.  An [inl]/[Some] answer is the exception the call
    raises. *)
Record World := {
  ds_detect : DeepstackFace → bytes → exn + list Prediction.t;
  ds_recognise : DeepstackFace → bytes → exn + list Prediction.t;
  ds_register_face : DeepstackFace → str → bytes → option exn;
  dt_util_now : datetime;
  (* [dt_util.now()] reads the system clock, which counts from
     1970-01-01 UTC; that moment is in 1969 west of Greenwich *)
  now_since_epoch : (1969 <=? year dt_util_now)%N = true;
  is_allowed_path : str → bool;
  image_open : bytes → option exn;      (* Image.open(...).convert("RGB") *)
  img_save : Path → option exn;         (* img.save(path) *)
  open_rb : str → exn + bytes           (* open(file_path, "rb"), then its content *)
}.

Definition of_sum {A} (r : exn + A) : Eff A :=
  match r with
  | inl e => raise e
  | inr a => mret a
  end.

Definition of_option (r : option exn) : Eff unit :=
  match r with
  | Some e => raise e
  | None => mret tt
  end.

(** [self._dsface.detect(image)], [.recognise(image)] and
    [.register_face(name, image)]: the request goes out, then the call
    returns or raises. *)
Definition detect (w : World) (client : DeepstackFace) (image : bytes)
  : Eff (list Prediction.t) :=
  emit (EvDetect client image) ;; of_sum (ds_detect w client image).

Definition recognise (w : World) (client : DeepstackFace) (image : bytes)
  : Eff (list Prediction.t) :=
  emit (EvRecognise client image) ;; of_sum (ds_recognise w client image).

Definition register_face (w : World) (client : DeepstackFace) (name : str)
    (image : bytes) : Eff unit :=
  emit (EvRegisterFace client name image) ;;
  of_option (ds_register_face w client name image).

(** [img.save(path)]: the file is written unless the call raises. *)
Definition save (w : World) (path : Path) : Eff unit :=
  of_option (img_save w path) ;; emit (EvSave path).

Definition open_ (w : World) (file_path : str) : Eff bytes :=
  emit (EvOpen file_path) ;; of_sum (open_rb w file_path).

(** Truth values of the objects the module tests with [if]. *)
Definition truthy_str (s : str) : bool :=
  match s with [] => false | _ => true end.

Definition truthy_opt_str (o : option str) : bool :=
  match o with Some s => truthy_str s | None => false end.

Definition truthy_opt_list {A} (o : option (list A)) : bool :=
  match o with Some (_ :: _) => true | _ => false end.

(** [str(x)] of an optional string: [None] prints as ["None"]. *)
Definition str_of_opt (o : option str) : str :=
  match o with Some s => s | None => u "None" end.

Definition CLASSIFIER : str := u "deepstack_face".

(** What the module takes from outside the repository and only passes
    on: the Unicode tables of the interpreter,
    [deepstack.core.get_recognised_faces] and
    [homeassistant.core.split_entity_id]. *)
Class Externals := {
  unicodedata_isalnum : char → bool;
  unicodedata_lower : str → str;
  get_recognised_faces : list Prediction.t → gmap str float;
  split_entity_id : str → list str
}.

Section Adapter.
Context {ext : Externals}.

Definition __init__ (ip_address : str) (port : Z) (api_key : str) (timeout : Z)
    (detect_only : bool) (save_file_folder : option Path)
    (save_timestamped_file : bool) (camera_entity : str) (name : option str)
  : outcome FaceClassifyEntity :=
  let mk name_ :=
    {| entity_id := None;
       _dsface := Build_DeepstackFace ip_address port api_key timeout;
       _detect_only := detect_only;
       _last_detection := None;
       _save_file_folder := save_file_folder;
       _save_timestamped_file := save_timestamped_file;
       _camera := camera_entity;
       _name := name_;
       _faces := [];
       _matched := ∅;
       total_faces := None |} in
  if truthy_opt_str name then Returned (mk (str_of_opt name))
  else
    match split_entity_id camera_entity !! 1%nat with
    | Some camera_name => Returned (mk (CLASSIFIER ++ u " " ++ camera_name))
    | None => Raised (Exn IndexError (u "list index out of range"))
    end.

(** [save_image], in a module whose top-level names are [globals]. *)
Definition save_image_in (globals : namespace) (w : World)
    (self : FaceClassifyEntity) (image : bytes) (directory : Path) : Eff unit :=
  match image_open w image with
  | Some exc =>
      (* except UnidentifiedImageError: *)
      caught ← of_sum (except_matches globals (Name "UnidentifiedImageError") exc);
      if caught : bool
      then log WARNING "Deepstack unable to process image, bad data" NoArg
      else raise exc
  | None =>
      let latest_save_path :=
        directory // (lower unicodedata_lower
                        (get_valid_filename unicodedata_isalnum (_name self))
                      ++ u "_latest.jpg") in
      save w latest_save_path ;;
      if _save_timestamped_file self then
        let timestamp_save_path :=
          directory // (_name self ++ u "_" ++ str_of_opt (_last_detection self)
                        ++ u ".jpg") in
        save w timestamp_save_path ;;
        log INFO "Deepstack saved file %s" (ArgPath timestamp_save_path)
      else mret tt
  end.

Definition save_image := save_image_in module_globals.

(** [process_image]: the adapter after the call, and what the call did. *)
Definition process_image (w : World) (self : FaceClassifyEntity) (image : bytes)
  : FaceClassifyEntity * Eff unit :=
  let self := set_faces [] self in
  let self := set_matched ∅ self in
  let self := set_total_faces None self in
  let call :=
    if _detect_only self then detect w (_dsface self) image
    else recognise w (_dsface self) image in
  match call with
  | (tr, Raised exc) =>
      (* except ds.DeepstackException as exc: *)
      (self,
       (tr, Returned tt) ;;
       caught ← of_sum (except_matches module_globals (Attr "ds" "DeepstackException") exc);
       if caught : bool
       then log ERROR "Depstack error : %s" (ArgExn exc)
       else raise exc)
  | (tr, Returned predictions) =>
      let self := set_faces predictions self in
      if (0 <? length (_faces self))%nat then
        let self :=
          set_last_detection (Some (strftime (dt_util_now w) DATETIME_FORMAT)) self in
        let self := set_total_faces (Some (length (_faces self))) self in
        let self := set_matched (get_recognised_faces (_faces self)) self in
        (self,
         (tr, Returned tt) ;;
         emit (EvProcessFaces (parse_faces (_faces self)) (total_faces self)) ;;
         match _save_file_folder self with
         | Some directory => save_image w self image directory
         | None => mret tt
         end)
      else
        let self := set_total_faces None self in
        let self := set_matched ∅ self in
        (self, (tr, Returned tt))
  end.

(** [teach] *)
Definition teach (w : World) (self : FaceClassifyEntity) (name file_path : str)
  : Eff unit :=
  if negb (is_allowed_path w file_path) then mret tt
  else
    image ← open_ w file_path;
    register_face w (_dsface self) name image ;;
    log INFO "Depstack face taught name : %s" (ArgStr name).

(** [state] *)
Definition state (self : FaceClassifyEntity) : option nat := total_faces self.

Inductive attr_value :=
| AttrBool (b : bool)
| AttrMatched (m : gmap str float)
| AttrInt (n : nat)
| AttrStr (s : str).

(** [device_state_attributes] *)
Definition device_state_attributes (self : FaceClassifyEntity)
  : gmap string attr_value :=
  let attr : gmap string attr_value := ∅ in
  let attr :=
    if _detect_only self
    then <["detect_only" := AttrBool (_detect_only self)]> attr else attr in
  let attr :=
    if negb (_detect_only self)
    then <["total_matched_faces" := AttrInt (size (_matched self))]>
           (<["matched_faces" := AttrMatched (_matched self)]> attr)
    else attr in
  let attr :=
    match _last_detection self with
    | Some s =>
        if truthy_str s then <["last_target_detection" := AttrStr s]> attr else attr
    | None => attr
    end in
  attr.

(** The data of a call of the [deepstack_teach_face] service, after
    [SERVICE_TEACH_SCHEMA]: the entity ids are optional, name and file
    path are required. *)
Record ServiceCall := {
  data_entity_id : option (list str);
  data_name : str;
  data_file_path : str
}.

(** [c.entity_id in entity_ids] *)
Definition entity_id_in (c : FaceClassifyEntity) (entity_ids : list str) : bool :=
  match entity_id c with
  | Some i => bool_decide (i ∈ entity_ids)
  | None => false
  end.

(** [service_handle], closed over [hass.data[DATA_DEEPSTACK]]. *)
Definition service_handle (w : World) (hass_data : list FaceClassifyEntity)
    (service : ServiceCall) : Eff unit :=
  let entity_ids := data_entity_id service in
  let classifiers := hass_data in
  let classifiers :=
    if truthy_opt_list entity_ids
    then List.filter (λ c, entity_id_in c (default [] entity_ids)) classifiers
    else classifiers in
  for_each classifiers (λ classifier,
    let name := data_name service in
    let file_path := data_file_path service in
    emit (EvTeach classifier name file_path) ;;
    teach w classifier name file_path).

End Adapter.

(** * Vocabulary of the properties *)

(** ** Response parsing *)

(** The face [parse_faces] builds from an entry that carries [userid]. *)
Definition face_of (userid : str) (entry : Prediction.t) : Face.t :=
  Face.mk userid (PyFloat.round (100 * Prediction.confidence entry)%float 2).

(** What one entry contributes when the loop gets to it. *)
Definition retained (entry : Prediction.t) : option Face.t :=
  match Prediction.userid entry with
  | Some userid => if decide (userid = u "unknown") then None else Some (face_of userid entry)
  | None => None
  end.

Definition has_userid (entry : Prediction.t) : Prop :=
  is_Some (Prediction.userid entry).

(** ** Traces *)

(** The files a trace wrote, the adapters whose [teach] it entered. *)
Definition saved (tr : list event) : list Path :=
  omap (λ ev, match ev with EvSave p => Some p | _ => None end) tr.

Definition taught (tr : list event) : list FaceClassifyEntity :=
  omap (λ ev, match ev with EvTeach c _ _ => Some c | _ => None end) tr.

(** ** The adapter *)

Section Vocabulary.
Context {ext : Externals}.

(** The answer of the service call [process_image] makes. *)
Definition service_answer (w : World) (self : FaceClassifyEntity) (image : bytes)
  : exn + list Prediction.t :=
  if _detect_only self then ds_detect w (_dsface self) image
  else ds_recognise w (_dsface self) image.

Definition service_request (self : FaceClassifyEntity) (image : bytes) : event :=
  if _detect_only self then EvDetect (_dsface self) image
  else EvRecognise (_dsface self) image.

(** The adapter as [process_image] leaves it when nothing was found. *)
Definition reset (self : FaceClassifyEntity) : FaceClassifyEntity :=
  set_total_faces None (set_matched ∅ (set_faces [] self)).

(** The adapter after a cycle that found [predictions] at time [now]. *)
Definition detected (now : datetime) (predictions : list Prediction.t)
    (self : FaceClassifyEntity) : FaceClassifyEntity :=
  set_matched (get_recognised_faces predictions)
    (set_total_faces (Some (length predictions))
       (set_last_detection (Some (strftime now DATETIME_FORMAT))
          (set_faces predictions (reset self)))).

Definition latest_save_path (self : FaceClassifyEntity) (directory : Path) : Path :=
  directory // (lower unicodedata_lower
                  (get_valid_filename unicodedata_isalnum (_name self))
                ++ u "_latest.jpg").

Definition timestamp_save_path (self : FaceClassifyEntity) (directory : Path)
    (timestamp : str) : Path :=
  directory // (_name self ++ u "_" ++ timestamp ++ u ".jpg").

(** [c'] is [c] in lower case, for ASCII: a capital letter moves to its
    small letter, every other character stays. *)
Definition lowercase_of (c c' : char) : Prop :=
  (in_range 65 90 c = true ∧ c' = (c + 32)%N)
  ∨ (in_range 65 90 c = false ∧ c' = c).

(** [stem] is [s] in lower case: character by character when [s] is
    ASCII, by the interpreter's case tables otherwise. *)
Definition lowercased (s stem : str) : Prop :=
  if forallb is_ascii s then Forall2 lowercase_of s stem
  else stem = unicodedata_lower s.

Definition is_digit (c : char) : bool := in_range 48 57 c.

(** The number a string of decimal digits denotes. *)
Definition numeral (s : str) : N :=
  fold_left (λ n c, (10 * n + (c - 48))%N) s 0%N.

(** [timestamp] spells the moment [dt]: year in its characters 0-3,
    month in 5-6, day in 8-9, hour in 11-12, minute in 14-15, second in
    17-18. *)
Definition spells (dt : datetime) (timestamp : str) : Prop :=
  numeral (take 4 timestamp) = year dt
  ∧ numeral (take 2 (drop 5 timestamp)) = month dt
  ∧ numeral (take 2 (drop 8 timestamp)) = day dt
  ∧ numeral (take 2 (drop 11 timestamp)) = hour dt
  ∧ numeral (take 2 (drop 14 timestamp)) = minute dt
  ∧ numeral (take 2 (drop 17 timestamp)) = second dt.

(** [s] has the shape of [template]: a digit wherever the template has
    a letter, the template's own character elsewhere. *)
Fixpoint matches_template (template s : str) : bool :=
  match template, s with
  | [], [] => true
  | t :: template', c :: s' =>
      (if ascii_isalnum t then is_digit c else (c =? t)%N)
      && matches_template template' s'
  | _, _ => false
  end.

(** The cycle finds at least one face. *)
Definition finds_faces (w : World) (self : FaceClassifyEntity) (image : bytes)
  : bool :=
  match service_answer w self image with
  | inr (_ :: _) => true
  | _ => false
  end.

(** The attributes carry the last-detection timestamp. *)
Definition exposes_last_detection (self : FaceClassifyEntity) : Prop :=
  is_Some (device_state_attributes self !! "last_target_detection").

(** Frames arrive one after the other, each in its own world. *)
Definition cycles (self : FaceClassifyEntity) (frames : list (World * bytes))
  : FaceClassifyEntity :=
  foldl (λ self frame, fst (process_image frame.1 self frame.2)) self frames.

(** The adapters a service call asks for, as the specification words
    it: those whose entity id is among the requested ones, or all of
    them when no entity id is given. *)
Definition requested (hass_data : list FaceClassifyEntity) (service : ServiceCall)
  : list FaceClassifyEntity :=
  match data_entity_id service with
  | None | Some [] => hass_data
  | Some entity_ids =>
      List.filter (λ c, bool_decide (entity_id c ∈ Some <$> entity_ids)) hass_data
  end.

Definition teach_all (w : World) (name file_path : str)
    (classifiers : list FaceClassifyEntity) : Eff unit :=
  for_each classifiers (λ classifier,
    emit (EvTeach classifier name file_path) ;;
    teach w classifier name file_path).

End Vocabulary.

(** ** A household to run the adapter in *)

(** ASCII-only tables, no recognised faces, entity ids of the [camera]
    domain. *)
Definition plain_externals : Externals := {|
  unicodedata_isalnum := λ _, false;
  unicodedata_lower := λ s, s;
  get_recognised_faces := λ _, ∅;
  split_entity_id := λ s, [take 6 s; drop 7 s]
|}.

Definition front_door : FaceClassifyEntity := {|
  entity_id := None;
  _dsface := {| ip_address := u "192.168.1.10"; port := 5000;
                api_key := []; timeout := 10 |};
  _detect_only := false;
  _last_detection := None;
  _save_file_folder := Some (PathOf (u "/config/www"));
  _save_timestamped_file := true;
  _camera := u "camera.front_door";
  _name := u "deepstack_face front_door";
  _faces := [];
  _matched := ∅;
  total_faces := None
|}.

Definition with_entity_id (i : str) (self : FaceClassifyEntity) :=
  {| entity_id := Some i; _dsface := _dsface self;
     _detect_only := _detect_only self; _last_detection := _last_detection self;
     _save_file_folder := _save_file_folder self;
     _save_timestamped_file := _save_timestamped_file self;
     _camera := _camera self; _name := _name self;
     _faces := _faces self; _matched := _matched self;
     total_faces := total_faces self |}.

Definition porch : FaceClassifyEntity :=
  with_entity_id (u "image_processing.deepstack_face_porch") front_door.

(** An adapter whose configured name has capitals and a space. *)
Definition porch_faces : FaceClassifyEntity := {|
  entity_id := Some (u "image_processing.porch_faces");
  _dsface := _dsface front_door;
  _detect_only := false;
  _last_detection := None;
  _save_file_folder := Some (PathOf (u "/config/www"));
  _save_timestamped_file := true;
  _camera := u "camera.porch";
  _name := u "Porch Faces";
  _faces := [];
  _matched := ∅;
  total_faces := None
|}.

Definition garage : FaceClassifyEntity :=
  with_entity_id (u "image_processing.deepstack_face_garage") front_door.

Definition two_faces : list Prediction.t :=
  [ Prediction.mk (Some (u "unknown")) 0.5%float;
    Prediction.mk (Some (u "alice")) 0.9%float ].

(** The service answers with two faces, every file operation works. *)
Definition fair_weather : World := {|
  ds_detect := λ _ _, inr [Prediction.mk None 0.5%float];
  ds_recognise := λ _ _, inr two_faces;
  ds_register_face := λ _ _ _, None;
  dt_util_now := {| year := 2020; month := 1; day := 9;
                    hour := 23; minute := 5; second := 0;
                    datetime_valid := eq_refl |};
  now_since_epoch := eq_refl;
  is_allowed_path := λ p, bool_decide (p = u "/config/www/alice.jpg");
  image_open := λ _, None;
  img_save := λ _, None;
  open_rb := λ _, inr [x00]
|}.

(** The service cannot be reached. *)
Definition service_down : World := {|
  ds_detect := λ _ _, inl (Exn DeepstackException (u "Timeout connecting to Deepstack"));
  ds_recognise := λ _ _, inl (Exn DeepstackException (u "Timeout connecting to Deepstack"));
  ds_register_face := λ _ _ _, Some (Exn DeepstackException (u "Timeout connecting to Deepstack"));
  dt_util_now := dt_util_now fair_weather;
  now_since_epoch := eq_refl;
  is_allowed_path := is_allowed_path fair_weather;
  image_open := λ _, None;
  img_save := λ _, None;
  open_rb := λ _, inr [x00]
|}.

(** Faces are found, but the frame itself is not an image PIL knows. *)
Definition bad_frame : World := {|
  ds_detect := ds_detect fair_weather;
  ds_recognise := ds_recognise fair_weather;
  ds_register_face := λ _ _ _, None;
  dt_util_now := dt_util_now fair_weather;
  now_since_epoch := eq_refl;
  is_allowed_path := is_allowed_path fair_weather;
  image_open := λ _, Some (Exn UnidentifiedImageError (u "cannot identify image file"));
  img_save := λ _, None;
  open_rb := λ _, inr [x00]
|}.

(** Every path is allowed, the file to teach from does not exist. *)
Definition missing_file : World := {|
  ds_detect := ds_detect fair_weather;
  ds_recognise := ds_recognise fair_weather;
  ds_register_face := λ _ _ _, None;
  dt_util_now := dt_util_now fair_weather;
  now_since_epoch := eq_refl;
  is_allowed_path := λ _, true;
  image_open := λ _, None;
  img_save := λ _, None;
  open_rb := λ _, inl (Exn FileNotFoundError (u "No such file or directory"))
|}.

Definition teach_everyone : ServiceCall := {|
  data_entity_id := None;
  data_name := u "alice";
  data_file_path := u "/config/www/alice.jpg"
|}.

(** Two entries, the named one first and one without identity after it. *)
Definition named_then_unidentified : list Prediction.t :=
  [ Prediction.mk (Some (u "alice")) 0.9%float; Prediction.mk None 0.5%float ].

(** * Platform setup *)

(** One entry of [config[CONF_SOURCE]]: the camera's entity id and its
    optional name. *)
Record CameraConf := {
  camera_entity_id : str;
  camera_name : option str
}.

(** The platform configuration after [PLATFORM_SCHEMA]: address and port
    are required, the schema fills in the defaults of the other keys, the
    output directory may be absent. *)
Record Config := {
  conf_ip_address : str;
  conf_port : Z;
  conf_api_key : str;
  conf_timeout : Z;
  conf_detect_only : bool;
  conf_save_file_folder : option str;
  conf_save_timestamped_file : bool;
  conf_source : list CameraConf
}.

Definition DATA_DEEPSTACK : string := "deepstack_classifiers".
Definition DOMAIN : string := "image_processing".
Definition SERVICE_TEACH_FACE : string := "deepstack_teach_face".

(** What [setup_platform] touches of the host: the shared dictionary
    [hass.data] (its entries that hold adapters), the calls of
    [add_devices] and the services registered, oldest first. *)
Module Hass.
Record t := mk {
  data : gmap string (list FaceClassifyEntity);
  added : list (list FaceClassifyEntity);
  services : list (string * string)
}.
End Hass.

Section Setup.
Context {ext : Externals}.

(** [save_file_folder] as the adapters get it: a [Path] when the
    configured string is non-empty, a false value otherwise. *)
Definition folder_of (config : Config) : option Path :=
  match conf_save_file_folder config with
  | Some s => if truthy_str s then Some (PathOf s) else None
  | None => None
  end.

(** The loop over the cameras: [entities] is the local list,
    [registry] the list [hass.data[DATA_DEEPSTACK]], which the loop
    appends to in place. *)
Fixpoint setup_cameras (config : Config) (cameras : list CameraConf)
    (entities registry : list FaceClassifyEntity)
  : list FaceClassifyEntity * list FaceClassifyEntity * outcome unit :=
  match cameras with
  | [] => (entities, registry, Returned tt)
  | camera :: cameras' =>
      match __init__ (conf_ip_address config) (conf_port config)
              (conf_api_key config) (conf_timeout config)
              (conf_detect_only config) (folder_of config)
              (conf_save_timestamped_file config)
              (camera_entity_id camera) (camera_name camera) with
      | Raised exc => (entities, registry, Raised exc)
      | Returned face_entity =>
          setup_cameras config cameras'
            (entities ++ [face_entity]) (registry ++ [face_entity])
      end
  end.

(** [setup_platform]: the host afterwards, and how the call ended. *)
Definition setup_platform (hass : Hass.t) (config : Config)
  : Hass.t * outcome unit :=
  let data :=
    match Hass.data hass !! DATA_DEEPSTACK with
    | Some _ => Hass.data hass
    | None => <[DATA_DEEPSTACK := []]> (Hass.data hass)
    end in
  let '(entities, registry, res) :=
    setup_cameras config (conf_source config) []
      (default [] (data !! DATA_DEEPSTACK)) in
  let data := <[DATA_DEEPSTACK := registry]> data in
  match res with
  | Raised exc =>
      (Hass.mk data (Hass.added hass) (Hass.services hass), Raised exc)
  | Returned _ =>
      (Hass.mk data (Hass.added hass ++ [entities])
         (Hass.services hass ++ [(DOMAIN, SERVICE_TEACH_FACE)]),
       Returned tt)
  end.

(** ** Vocabulary *)

(** The name an adapter gets for a camera. *)
Definition default_name (camera_entity : str) : option str :=
  (λ camera_name, CLASSIFIER ++ u " " ++ camera_name)
    <$> split_entity_id camera_entity !! 1%nat.

(** The constructor returns for this camera. *)
Definition camera_ok (camera : CameraConf) : Prop :=
  truthy_opt_str (camera_name camera) = true
  ∨ is_Some (split_entity_id (camera_entity_id camera) !! 1%nat).

(** A freshly built adapter of this configuration. *)
Definition fresh_of (config : Config) (self : FaceClassifyEntity) : Prop :=
  entity_id self = None
  ∧ _dsface self = Build_DeepstackFace (conf_ip_address config) (conf_port config)
                     (conf_api_key config) (conf_timeout config)
  ∧ _detect_only self = conf_detect_only config
  ∧ _save_file_folder self = folder_of config
  ∧ _save_timestamped_file self = conf_save_timestamped_file config
  ∧ _last_detection self = None
  ∧ _faces self = [] ∧ _matched self = ∅ ∧ total_faces self = None.

(** The requests a trace sent to the Deepstack service. *)
Definition is_request (ev : event) : bool :=
  match ev with
  | EvDetect _ _ | EvRecognise _ _ | EvRegisterFace _ _ _ => true
  | _ => false
  end.

Definition requests (tr : list event) : list event := List.filter is_request tr.

(** The host events a trace fired. *)
Definition fired (tr : list event) : list (list Face.t * option nat) :=
  omap (λ ev, match ev with EvProcessFaces f t => Some (f, t) | _ => None end) tr.

(** The lines a trace logged. *)
Definition logged (tr : list event) : list (log_level * string * log_arg) :=
  omap (λ ev, match ev with EvLog l f a => Some (l, f, a) | _ => None end) tr.

(** The configuration of an adapter: what [__init__] sets and no method
    assigns afterwards. *)
Definition same_config (self self' : FaceClassifyEntity) : Prop :=
  entity_id self' = entity_id self
  ∧ _dsface self' = _dsface self
  ∧ _detect_only self' = _detect_only self
  ∧ _save_file_folder self' = _save_file_folder self
  ∧ _save_timestamped_file self' = _save_timestamped_file self
  ∧ _camera self' = _camera self
  ∧ _name self' = _name self.

(** The characters the sanitizer lets through. *)
Definition allowed (unicode_isalnum : char → bool) (c : char) : Prop :=
  is_word unicode_isalnum c = true ∨ c = 45%N ∨ c = 46%N.

(** The characters of a file name that is safe on every file system:
    lower-case letters, digits, underscore, hyphen, dot. *)
Definition is_plain (c : char) : bool :=
  in_range 97 122 c || in_range 48 57 c
  || (c =? 95)%N || (c =? 45)%N || (c =? 46)%N.

End Setup.

(** ** A second household *)

Definition cameras_config : Config := {|
  conf_ip_address := u "192.168.1.10";
  conf_port := 5000;
  conf_api_key := [];
  conf_timeout := 10;
  conf_detect_only := false;
  conf_save_file_folder := Some (u "/config/www");
  conf_save_timestamped_file := true;
  conf_source :=
    [ {| camera_entity_id := u "camera.front_door"; camera_name := None |};
      {| camera_entity_id := u "camera.porch"; camera_name := Some (u "Porch Faces") |} ]
|}.

Definition empty_hass : Hass.t := Hass.mk ∅ [] [].

(** [entity_id.split(".", 1)], which is what the host's [split_entity_id]
    did when the module was written. *)
Fixpoint split_first_dot (s : str) : list str :=
  match s with
  | [] => [[]]
  | c :: s' =>
      if (c =? 46)%N then [[]; s']
      else match split_first_dot s' with
           | part :: parts => (c :: part) :: parts
           | [] => [[c]]
           end
  end.

Definition splitting_externals : Externals := {|
  unicodedata_isalnum := λ _, false;
  unicodedata_lower := λ s, s;
  get_recognised_faces := λ _, ∅;
  split_entity_id := split_first_dot
|}.

(** A configuration whose second camera has neither a name nor an
    entity id with a dot. *)
Definition broken_config : Config := {|
  conf_ip_address := u "192.168.1.10";
  conf_port := 5000;
  conf_api_key := [];
  conf_timeout := 10;
  conf_detect_only := true;
  conf_save_file_folder := None;
  conf_save_timestamped_file := false;
  conf_source :=
    [ {| camera_entity_id := u "camera.garden"; camera_name := None |};
      {| camera_entity_id := u "garage"; camera_name := None |};
      {| camera_entity_id := u "camera.attic"; camera_name := None |} ]
|}.

(** An adapter in detect-only mode that saves nothing. *)
Definition driveway : FaceClassifyEntity := {|
  entity_id := Some (u "image_processing.deepstack_face_driveway");
  _dsface := _dsface front_door;
  _detect_only := true;
  _last_detection := None;
  _save_file_folder := None;
  _save_timestamped_file := false;
  _camera := u "camera.driveway";
  _name := u "deepstack_face driveway";
  _faces := [];
  _matched := ∅;
  total_faces := None
|}.

(** The front-door adapter as an earlier frame with two faces left it. *)
Definition front_door_busy : FaceClassifyEntity :=
  set_faces two_faces (set_total_faces (Some 2%nat) front_door).

(** Nobody is in front of the camera. *)
Definition nobody_there : World := {|
  ds_detect := λ _ _, inr [];
  ds_recognise := λ _ _, inr [];
  ds_register_face := λ _ _ _, None;
  dt_util_now := dt_util_now fair_weather;
  now_since_epoch := eq_refl;
  is_allowed_path := is_allowed_path fair_weather;
  image_open := λ _, None;
  img_save := λ _, None;
  open_rb := λ _, inr [x00]
|}.

(** The client library lets an error of the HTTP layer through. *)
Definition broken_pipe : World := {|
  ds_detect := λ _ _, inl (Exn RequestException (u "Connection aborted"));
  ds_recognise := λ _ _, inl (Exn RequestException (u "Connection aborted"));
  ds_register_face := λ _ _ _, None;
  dt_util_now := dt_util_now fair_weather;
  now_since_epoch := eq_refl;
  is_allowed_path := is_allowed_path fair_weather;
  image_open := λ _, None;
  img_save := λ _, None;
  open_rb := λ _, inr [x00]
|}.

(** The disk takes the latest file and refuses every other one. *)
Definition disk_full : World := {|
  ds_detect := ds_detect fair_weather;
  ds_recognise := ds_recognise fair_weather;
  ds_register_face := λ _ _ _, None;
  dt_util_now := dt_util_now fair_weather;
  now_since_epoch := eq_refl;
  is_allowed_path := is_allowed_path fair_weather;
  image_open := λ _, None;
  img_save := λ p,
    match p with
    | PathJoin _ file_name =>
        if bool_decide (file_name = u "deepstack_face_front_door_latest.jpg")
        then None
        else Some (Exn OSError (u "No space left on device"))
    | PathOf _ => Some (Exn OSError (u "Is a directory"))
    end;
  open_rb := λ _, inr [x00]
|}.

(** The host after one and after two platform setups. *)
Definition one_platform : Hass.t :=
  fst (setup_platform (ext := splitting_externals) empty_hass cameras_config).

Definition two_platforms : Hass.t :=
  fst (setup_platform (ext := splitting_externals) one_platform cameras_config).



(** * Properties *)

(** ** The filename sanitizer *)

Section SanitizerFacts.
Variable unicode_isalnum : char → bool.

Lemma class_matches_filename_class c :
  class_matches unicode_isalnum filename_class c
  = is_word unicode_isalnum c || (c =? 45)%N || (c =? 46)%N.
Proof.
  unfold class_matches, filename_class; simpl.
  destruct (is_word unicode_isalnum c), (c =? 45)%N, (c =? 46)%N; reflexivity.
Qed.

Lemma get_valid_filename_unfold name :
  get_valid_filename unicode_isalnum name
  = sanitize_as_specified unicode_isalnum (strip name).
Proof.
  unfold get_valid_filename, sanitize_as_specified, re_sub_negclass_empty, replace.
  apply List.filter_ext. intros c. apply class_matches_filename_class.
Qed.

Lemma get_valid_filename_chars name c :
  c ∈ get_valid_filename unicode_isalnum name →
  is_word unicode_isalnum c = true ∨ c = 45%N ∨ c = 46%N.
Proof.
  unfold get_valid_filename, re_sub_negclass_empty.
  rewrite list_elem_of_In, List.filter_In. intros [_ Hc].
  rewrite class_matches_filename_class in Hc.
  apply orb_prop in Hc as [Hc | Hc]; [apply orb_prop in Hc as [Hc | Hc] |].
  - by left.
  - right; left. by apply N.eqb_eq.
  - right; right. by apply N.eqb_eq.
Qed.

Lemma underscore_is_word : is_word unicode_isalnum 95%N = true.
Proof. unfold is_word. by rewrite orb_true_r. Qed.

End SanitizerFacts.

(** C6, as stated, fails: the sanitizer strips leading and trailing
    whitespace before it replaces spaces, so [" a"] becomes ["a"] where
    replacing first would give ["_a"]. *)
Lemma get_valid_filename_strips_first :
  get_valid_filename (λ _, false) (u " a") = u "a"
  ∧ sanitize_as_specified (λ _, false) (u " a") = u "_a"
  ∧ get_valid_filename (λ _, false) (u " a")
    ≠ sanitize_as_specified (λ _, false) (u " a").
Proof. repeat split. vm_compute. discriminate. Qed.

(** C6, amended: for every input string the sanitizer strips leading and
    trailing whitespace, then replaces the remaining spaces with
    underscores, then removes every character that is not a word
    character, a hyphen or a dot; ["John Doe!"] yields ["John_Doe"]; the
    output holds only word characters (the underscore among them),
    hyphens and dots. *)
Theorem get_valid_filename_spec (unicode_isalnum : char → bool) (name : str) :
  get_valid_filename unicode_isalnum name
  = sanitize_as_specified unicode_isalnum (strip name)
  ∧ get_valid_filename unicode_isalnum (u "John Doe!") = u "John_Doe"
  ∧ is_word unicode_isalnum 95%N = true
  ∧ ∀ c, c ∈ get_valid_filename unicode_isalnum name →
         is_word unicode_isalnum c = true ∨ c = 45%N ∨ c = 46%N.
Proof.
  split; [apply get_valid_filename_unfold |].
  split; [reflexivity |].
  split; [apply underscore_is_word |].
  intros c. apply get_valid_filename_chars.
Qed.

Lemma get_valid_filename_spec_witness :
  is_word (λ _, false) 74%N = true ∨ 74%N = 45%N ∨ 74%N = 46%N.
Proof.
  apply (proj2 (proj2 (proj2 (get_valid_filename_spec (λ _, false) (u "John Doe!"))))).
  vm_compute. constructor.
Defined.

(** ** Response parsing *)

Lemma parse_faces_loop_all_identified predictions faces :
  Forall has_userid predictions →
  parse_faces_loop predictions faces = faces ++ omap retained predictions.
Proof.
  intros Hall. revert faces.
  induction Hall as [| entry predictions [userid Hid] _ IH]; intros faces; simpl.
  - by rewrite app_nil_r.
  - unfold retained at 1. rewrite Hid.
    destruct (decide (userid = u "unknown")) as [_ | _].
    + apply IH.
    + rewrite IH, <- app_assoc. reflexivity.
Qed.

Lemma parse_faces_loop_break pre entry post faces :
  Forall has_userid pre →
  Prediction.userid entry = None →
  parse_faces_loop (pre ++ entry :: post) faces = parse_faces_loop pre faces.
Proof.
  intros Hall Hnone. revert faces.
  induction Hall as [| e pre [userid Hid] _ IH]; intros faces; simpl.
  - by rewrite Hnone.
  - rewrite Hid. destruct (decide (userid = u "unknown")); apply IH.
Qed.

Lemma omap_retained_filter predictions :
  Forall has_userid predictions →
  omap retained predictions
  = List.map (λ e, face_of (default [] (Prediction.userid e)) e)
      (List.filter (λ e, negb (bool_decide (Prediction.userid e = Some (u "unknown"))))
         predictions).
Proof.
  induction 1 as [| entry predictions [userid Hid] _ IH]; simpl; [done |].
  unfold retained at 1. rewrite Hid.
  destruct (decide (userid = u "unknown")) as [-> | Hne].
  - rewrite bool_decide_eq_true_2 by done. simpl. apply IH.
  - rewrite bool_decide_eq_false_2 by congruence. simpl.
    rewrite Hid. simpl. f_equal. exact IH.
Qed.

Lemma retained_Some entry face :
  retained entry = Some face →
  Prediction.userid entry = Some (Face.name face)
  ∧ Face.name face ≠ u "unknown"
  ∧ Face.confidence face
    = PyFloat.round (100 * Prediction.confidence entry)%float 2.
Proof.
  unfold retained. destruct (Prediction.userid entry) as [userid |]; [| done].
  destruct (decide (userid = u "unknown")); [done |].
  intros [= <-]. done.
Qed.

Lemma parse_faces_loop_acc predictions faces :
  parse_faces_loop predictions faces = faces ++ parse_faces predictions.
Proof.
  unfold parse_faces. revert faces.
  induction predictions as [| entry predictions IH]; intros faces; simpl.
  - by rewrite app_nil_r.
  - destruct (Prediction.userid entry) as [userid |]; [| by rewrite app_nil_r].
    destruct (decide (userid = u "unknown")); [apply IH |].
    rewrite (IH (faces ++ _)), (IH [_]), <- app_assoc. reflexivity.
Qed.

Lemma parse_faces_app pre predictions :
  Forall has_userid pre →
  parse_faces (pre ++ predictions) = parse_faces pre ++ parse_faces predictions.
Proof.
  intros Hall. unfold parse_faces at 1 2. generalize (@nil Face.t) as faces.
  induction Hall as [| entry pre [userid Hid] _ IH]; intros faces; simpl.
  - apply parse_faces_loop_acc.
  - rewrite Hid. destruct (decide (userid = u "unknown")); apply IH.
Qed.

Lemma parse_faces_loop_elem predictions faces face :
  face ∈ parse_faces_loop predictions faces →
  face ∈ faces ∨ ∃ entry, entry ∈ predictions ∧ retained entry = Some face.
Proof.
  revert faces. induction predictions as [| entry predictions IH]; intros faces; simpl.
  - by left.
  - destruct (Prediction.userid entry) as [userid |] eqn:Hid; [| by left].
    destruct (decide (userid = u "unknown")) as [Hu | Hu].
    + intros Hin. destruct (IH _ Hin) as [? | (e & ? & ?)]; [by left |].
      right. exists e. split; [by right | done].
    + intros Hin. destruct (IH _ Hin) as [Hacc | (e & ? & ?)].
      * apply elem_of_app in Hacc as [? | Hnew]; [by left |].
        apply list_elem_of_singleton in Hnew as ->.
        right. exists entry. split; [by left |].
        unfold retained. rewrite Hid. by destruct (decide (userid = u "unknown")).
      * right. exists e. split; [by right | done].
Qed.

(** C2, as stated, fails: a list with an identity-free entry after a
    named one yields the named face, not the empty list. *)
Lemma parse_faces_keeps_faces_before_break :
  Exists (λ entry, Prediction.userid entry = None) named_then_unidentified
  ∧ parse_faces named_then_unidentified = [ Face.mk (u "alice") 90%float ]
  ∧ parse_faces named_then_unidentified ≠ [].
Proof.
  split; [| split].
  - right. left. reflexivity.
  - reflexivity.
  - discriminate.
Qed.

(** C2, amended: parse_faces stops at the first entry that lacks the
    identity field and returns the faces of the entries before it,
    whatever follows; when the first entry lacks the identity field the
    result is the empty list. *)
Theorem parse_faces_stops_at_unidentified (pre post : list Prediction.t)
    (entry : Prediction.t) :
  Forall has_userid pre →
  Prediction.userid entry = None →
  parse_faces (pre ++ entry :: post) = parse_faces pre
  ∧ parse_faces (entry :: post) = [].
Proof.
  intros Hpre Hnone. split.
  - by apply parse_faces_loop_break.
  - apply (parse_faces_loop_break [] entry post []); [constructor | done].
Qed.

Lemma parse_faces_stops_at_unidentified_witness :
  parse_faces ([Prediction.mk (Some (u "alice")) 0.9%float]
               ++ Prediction.mk None 0.5%float
                  :: [Prediction.mk (Some (u "bob")) 0.7%float])
  = parse_faces [Prediction.mk (Some (u "alice")) 0.9%float]
  ∧ parse_faces (Prediction.mk None 0.5%float
                 :: [Prediction.mk (Some (u "bob")) 0.7%float]) = [].
Proof.
  apply parse_faces_stops_at_unidentified.
  - repeat constructor. by eexists.
  - reflexivity.
Defined.

(** C4: when every entry carries the identity field, parse_faces drops
    exactly the entries whose identity is the string "unknown", keeps the
    others in input order, and returns the empty list on the empty
    list. *)
Theorem parse_faces_filters_unknown (predictions : list Prediction.t) :
  Forall has_userid predictions →
  parse_faces predictions
  = List.map (λ e, face_of (default [] (Prediction.userid e)) e)
      (List.filter (λ e, negb (bool_decide (Prediction.userid e = Some (u "unknown"))))
         predictions)
  ∧ parse_faces [] = [].
Proof.
  intros Hall. split; [| reflexivity].
  unfold parse_faces. rewrite parse_faces_loop_all_identified by done.
  simpl. by apply omap_retained_filter.
Qed.

Lemma parse_faces_filters_unknown_witness :
  parse_faces [ Prediction.mk (Some (u "unknown")) 0.4%float;
                Prediction.mk (Some (u "bob")) 0.7%float;
                Prediction.mk (Some (u "Unknown")) 0.6%float;
                Prediction.mk (Some (u "alice")) 0.9%float ]
  = [ Face.mk (u "bob") 70%float; Face.mk (u "Unknown") 60%float;
      Face.mk (u "alice") 90%float ]
  ∧ parse_faces [] = [].
Proof.
  refine (parse_faces_filters_unknown
            [ Prediction.mk (Some (u "unknown")) 0.4%float;
              Prediction.mk (Some (u "bob")) 0.7%float;
              Prediction.mk (Some (u "Unknown")) 0.6%float;
              Prediction.mk (Some (u "alice")) 0.9%float ] _).
  repeat constructor; by eexists.
Defined.

(** ** Rounding *)

(** [div_half_even] picks an integer nearest to the quotient... *)
Lemma div_half_even_nearest (num den : Z) :
  (0 < den)%Z →
  (2 * Z.abs (PyFloat.div_half_even num den * den - num) ≤ den)%Z.
Proof.
  intros Hden. unfold PyFloat.div_half_even.
  pose proof (Z.div_mod num den ltac:(lia)) as Hdm.
  pose proof (Z.mod_pos_bound num den Hden) as Hr.
  destruct (Z.compare_spec (2 * (num mod den)) den) as [Heq | Hlt | Hgt].
  - destruct (Z.even (num / den)); nia.
  - nia.
  - nia.
Qed.

(** ... and the even one of the two when the quotient lies half way. *)
Lemma div_half_even_tie (num den : Z) :
  (2 * (num mod den) = den)%Z →
  Z.even (PyFloat.div_half_even num den) = true.
Proof.
  intros Htie. unfold PyFloat.div_half_even.
  rewrite Htie, Z.compare_refl.
  destruct (Z.even (num / den)) eqn:Hev; [done |].
  rewrite Z.even_add, Hev. reflexivity.
Qed.

(** Rounding a finite, non-integral float to two places: the result is
    the binary64 nearest to [n / 100] for an integer [n] within one half
    of [|x| * 100]. *)
Lemma round_two_places (x : float) (s : bool) (m : positive) (e : Z) :
  Prim2SF x = S754_finite s m e →
  (e < 0)%Z →
  ∃ n : Z,
    (2 * Z.abs (n * 2 ^ (- e) - Z.pos m * 100) ≤ 2 ^ (- e))%Z
    ∧ PyFloat.round x 2
      = match n with
        | Z.pos n' => SF2Prim (SFdiv prec emax (S754_finite s n' 0) (S754_finite false 100 0))
        | _ => SF2Prim (S754_zero s)
        end.
Proof.
  intros Hx He. exists (PyFloat.div_half_even (Z.pos m * 100) (2 ^ (- e))).
  split.
  - apply div_half_even_nearest. apply Z.pow_pos_nonneg; lia.
  - unfold PyFloat.round. rewrite Hx.
    change (PyFloat.NDIGITS_MAX <? Z.of_N 2)%Z with false.
    change (10 ^ Z.of_N 2)%Z with 100%Z.
    cbv iota. apply Z.ltb_lt in He. rewrite He. reflexivity.
Qed.

(** C5: every face parse_faces emits comes from a retained entry (named,
    not "unknown") and carries that entry's confidence times 100.0,
    rounded to two decimal places; every retained entry that the loop
    reaches is emitted so, in its place; an input confidence of 0.8765
    gives 87.65. *)
Theorem parse_faces_confidence (predictions : list Prediction.t) (face : Face.t) :
  (face ∈ parse_faces predictions →
   ∃ entry, entry ∈ predictions
     ∧ Prediction.userid entry = Some (Face.name face)
     ∧ Face.name face ≠ u "unknown"
     ∧ Face.confidence face
       = PyFloat.round (100 * Prediction.confidence entry)%float 2)
  ∧ (∀ pre entry post userid,
       Forall has_userid pre →
       Prediction.userid entry = Some userid →
       userid ≠ u "unknown" →
       parse_faces (pre ++ entry :: post)
       = parse_faces pre
         ++ Face.mk userid (PyFloat.round (100 * Prediction.confidence entry)%float 2)
            :: parse_faces post)
  ∧ PyFloat.round (100 * 0.8765)%float 2 = 87.65%float.
Proof.
  split; [| split].
  - intros Hin. apply parse_faces_loop_elem in Hin as [Hin | (entry & Hin & Hret)].
    + by apply elem_of_nil in Hin.
    + exists entry. split; [done |]. by apply retained_Some.
  - intros pre entry post userid Hpre Hid Hne.
    rewrite (parse_faces_app _ _ Hpre). f_equal.
    unfold parse_faces at 1. simpl. rewrite Hid.
    destruct (decide (userid = u "unknown")); [done |].
    apply (parse_faces_loop_acc post [_]).
  - reflexivity.
Qed.

Lemma parse_faces_confidence_witness :
  ∃ entry, entry ∈ [Prediction.mk (Some (u "alice")) 0.8765%float]
    ∧ Prediction.userid entry = Some (u "alice")
    ∧ u "alice" ≠ u "unknown"
    ∧ 87.65%float = PyFloat.round (100 * Prediction.confidence entry)%float 2.
Proof.
  apply (proj1 (parse_faces_confidence
                  [Prediction.mk (Some (u "alice")) 0.8765%float]
                  (Face.mk (u "alice") 87.65%float))).
  vm_compute. constructor.
Defined.

(** ** Traces *)

Lemma bind_trace {A B} (m : Eff A) (k : A → Eff B) :
  trace (m ≫= k)
  = trace m ++ match result m with
               | Returned a => trace (k a)
               | Raised _ => []
               end.
Proof.
  destruct m as [tr [a | e]]; unfold trace, result, mbind, Eff_bind; simpl.
  - by destruct (k a).
  - by rewrite app_nil_r.
Qed.

Lemma bind_result {A B} (m : Eff A) (k : A → Eff B) :
  result (m ≫= k)
  = match result m with
    | Returned a => result (k a)
    | Raised e => Raised e
    end.
Proof.
  destruct m as [tr [a | e]]; unfold trace, result, mbind, Eff_bind; simpl.
  - by destruct (k a).
  - done.
Qed.

Lemma emit_then_trace {A} (ev : event) (m : Eff A) :
  trace (emit ev ;; m) = ev :: trace m.
Proof. by destruct m as [tr r]. Qed.

Lemma emit_then_result {A} (ev : event) (m : Eff A) :
  result (emit ev ;; m) = result m.
Proof. by destruct m as [tr r]. Qed.

Ltac eff_unfold :=
  unfold log, emit, raise, of_sum, of_option, trace, result,
    mbind, Eff_bind, mret, Eff_ret in *.

(** ** The adapter *)

Section AdapterFacts.
Context {ext : Externals}.

Lemma save_image_undecodable w self image directory exc :
  image_open w image = Some exc →
  save_image w self image directory
  = ([], Raised (Exn NameError (u "UnidentifiedImageError"))).
Proof.
  intros Hopen. unfold save_image, save_image_in. rewrite Hopen.
  reflexivity.
Qed.

(** Had the module imported the class
    ([from PIL import Image, ImageDraw, UnidentifiedImageError]), the
    handler would do what it is written for. *)
Lemma save_image_with_import w self image directory arg :
  image_open w image = Some (Exn UnidentifiedImageError arg) →
  save_image_in (("UnidentifiedImageError", PyClass UnidentifiedImageError)
                 :: module_globals) w self image directory
  = ([EvLog WARNING "Deepstack unable to process image, bad data" NoArg],
     Returned tt).
Proof.
  intros Hopen. unfold save_image_in. rewrite Hopen. reflexivity.
Qed.

Lemma process_image_raised w self image exc :
  service_answer w self image = inl exc →
  process_image w self image
  = (reset self,
     if issubclass (exn_class exc) DeepstackException
     then ([service_request self image;
            EvLog ERROR "Depstack error : %s" (ArgExn exc)], Returned tt)
     else ([service_request self image], Raised exc)).
Proof.
  unfold service_answer, service_request, process_image, detect, recognise.
  intros Hans. simpl.
  destruct (_detect_only self); rewrite Hans; simpl;
    unfold except_matches; simpl;
    by destruct (issubclass (exn_class exc) DeepstackException).
Qed.

Lemma process_image_no_faces w self image :
  service_answer w self image = inr [] →
  process_image w self image
  = (reset self, ([service_request self image], Returned tt)).
Proof.
  unfold service_answer, service_request, process_image, detect, recognise.
  intros Hans. simpl.
  by destruct (_detect_only self); rewrite Hans.
Qed.

Lemma process_image_faces w self image predictions :
  service_answer w self image = inr predictions →
  predictions ≠ [] →
  process_image w self image
  = (detected (dt_util_now w) predictions self,
     emit (service_request self image) ;;
     emit (EvProcessFaces (parse_faces predictions) (Some (length predictions))) ;;
     match _save_file_folder self with
     | Some directory =>
         save_image w (detected (dt_util_now w) predictions self) image directory
     | None => mret tt
     end).
Proof.
  unfold service_answer, service_request, process_image, detect, recognise.
  intros Hans Hne. simpl.
  destruct predictions as [| entry predictions]; [done |].
  by destruct (_detect_only self); rewrite Hans; simpl;
    destruct (_save_file_folder self).
Qed.

(** C1 fails on the code: when the frame does not decode, save_image
    raises NameError, because the name in its except clause,
    UnidentifiedImageError, is bound nowhere in the module; nothing is
    logged, no file is written, and the error leaves process_image too,
    after the detection state has been set. *)
Theorem save_image_bad_data_raises_NameError (w : World)
    (self : FaceClassifyEntity) (image : bytes) (directory : Path)
    (exc : exn) (predictions : list Prediction.t) :
  image_open w image = Some exc →
  save_image w self image directory
  = ([], Raised (Exn NameError (u "UnidentifiedImageError")))
  ∧ (service_answer w self image = inr predictions →
     predictions ≠ [] →
     _save_file_folder self = Some directory →
     result (snd (process_image w self image))
     = Raised (Exn NameError (u "UnidentifiedImageError"))
     ∧ total_faces (fst (process_image w self image)) = Some (length predictions)).
Proof.
  intros Hopen. split; [by eapply save_image_undecodable |].
  intros Hans Hne Hdir.
  rewrite (process_image_faces _ _ _ _ Hans Hne). simpl. split; [| done].
  rewrite Hdir, (save_image_undecodable _ _ _ _ _ Hopen). reflexivity.
Qed.

(** C3: when the service call raises a Deepstack exception,
    process_image logs an error and returns normally, and the adapter
    is left with no faces: total_faces is None, the tally and the list
    of faces are empty. *)
Theorem process_image_deepstack_error (w : World) (self : FaceClassifyEntity)
    (image : bytes) (exc : exn) :
  service_answer w self image = inl exc →
  exn_class exc = DeepstackException →
  let '(self', run) := process_image w self image in
  result run = Returned tt
  ∧ trace run = [service_request self image;
                 EvLog ERROR "Depstack error : %s" (ArgExn exc)]
  ∧ total_faces self' = None
  ∧ _matched self' = ∅
  ∧ _faces self' = []
  ∧ state self' = None.
Proof.
  intros Hans Hcls. rewrite (process_image_raised _ _ _ _ Hans), Hcls.
  simpl. done.
Qed.

(** C7: with a file path the host does not allow, teach returns at
    once: it opens no file, sends nothing to the service, logs nothing
    and raises nothing. *)
Theorem teach_disallowed_path (w : World) (self : FaceClassifyEntity)
    (name file_path : str) :
  is_allowed_path w file_path = false →
  teach w self name file_path = ([], Returned tt).
Proof. intros Hpath. unfold teach. rewrite Hpath. reflexivity. Qed.

(** *** Saved files *)

Lemma save_image_returned w self image directory :
  result (save_image w self image directory) = Returned tt →
  saved (trace (save_image w self image directory))
  = latest_save_path self directory
    :: (if _save_timestamped_file self
        then [timestamp_save_path self directory (str_of_opt (_last_detection self))]
        else []).
Proof.
  unfold save_image, save_image_in, save. cbv zeta.
  fold (latest_save_path self directory).
  fold (timestamp_save_path self directory (str_of_opt (_last_detection self))).
  destruct (image_open w image) as [exc |]; [by vm_compute |].
  destruct (img_save w (latest_save_path self directory)) as [e1 |];
    [intros Hret; vm_compute in Hret; discriminate |].
  destruct (_save_timestamped_file self); [| reflexivity].
  destruct (img_save w (timestamp_save_path self directory _)) as [e2 |];
    [intros Hret; vm_compute in Hret; discriminate |].
  reflexivity.
Qed.

Lemma strftime_DATETIME_FORMAT dt :
  strftime dt DATETIME_FORMAT
  = decimal (year dt) ++ [45%N] ++ pad2 (month dt) ++ [45%N] ++ pad2 (day dt)
    ++ [95%N] ++ pad2 (hour dt) ++ [45%N] ++ pad2 (minute dt) ++ [45%N]
    ++ pad2 (second dt).
Proof. reflexivity. Qed.

(** Before the year 1000 the time stamp is shorter. *)
Example strftime_year_999 :
  strftime {| year := 999; month := 1; day := 2; hour := 3; minute := 4;
              second := 5; datetime_valid := eq_refl |} DATETIME_FORMAT
  = u "999-01-02_03-04-05".
Proof. reflexivity. Qed.

(** From 1000 on a year has four digits. *)
Lemma decimal_four_digits y : (1000 ≤ y)%N → decimal y = pad4 y.
Proof.
  intros Hy. unfold decimal.
  destruct (N.ltb_spec y 10); [lia |].
  destruct (N.ltb_spec y 100); [lia |].
  destruct (N.ltb_spec y 1000); [lia | done].
Qed.

Lemma clock_year w : (1000 ≤ year (dt_util_now w))%N.
Proof. pose proof (now_since_epoch w) as Hy. apply N.leb_le in Hy. lia. Qed.

Lemma datetime_bounds dt :
  (year dt < 10000 ∧ month dt < 100 ∧ day dt < 100
   ∧ hour dt < 100 ∧ minute dt < 100 ∧ second dt < 100)%N.
Proof.
  pose proof (datetime_valid dt) as Hv. unfold valid_datetime, in_range in Hv.
  rewrite !andb_true_iff, !N.leb_le, !N.ltb_lt in Hv.
  assert (days_in_month (year dt) (month dt) ≤ 31)%N.
  { unfold days_in_month.
    destruct (month dt =? 2)%N; [by destruct (is_leap (year dt)) |].
    by destruct (_ || _). }
  lia.
Qed.

Lemma is_digit_digit n : is_digit (digit n) = true.
Proof.
  unfold is_digit, in_range, digit.
  assert (n mod 10 < 10)%N as Hlt by (by apply N.mod_lt).
  revert Hlt. generalize (n mod 10)%N as r. intros r Hlt.
  apply andb_true_intro. split; apply N.leb_le; lia.
Qed.

Lemma strftime_shape dt :
  (1000 ≤ year dt)%N →
  matches_template (u "YYYY-MM-DD_HH-MM-SS") (strftime dt DATETIME_FORMAT) = true.
Proof.
  intros Hy. rewrite strftime_DATETIME_FORMAT, (decimal_four_digits _ Hy).
  unfold pad4, pad2. simpl. by rewrite !is_digit_digit.
Qed.

Lemma digit_value n : (digit n - 48 = n mod 10)%N.
Proof. unfold digit. by rewrite N.add_comm, N.add_sub. Qed.

Lemma numeral_pad2 n : (n < 100)%N → numeral (pad2 n) = n.
Proof.
  intros Hn. unfold numeral, pad2. cbn [fold_left]. rewrite !digit_value.
  pose proof (N.div_mod' n 10) as H0.
  assert (n / 10 < 10)%N as H1 by (by apply N.Div0.div_lt_upper_bound).
  rewrite (N.mod_small (n / 10)) by done.
  revert H0. generalize (n mod 10)%N (n / 10)%N. intros r q H0. lia.
Qed.

Lemma numeral_pad4 n : (n < 10000)%N → numeral (pad4 n) = n.
Proof.
  intros Hn. unfold numeral, pad4. cbn [fold_left]. rewrite !digit_value.
  pose proof (N.div_mod' n 10) as H0.
  pose proof (N.div_mod' (n / 10) 10) as H1.
  pose proof (N.div_mod' (n / 100) 10) as H2.
  rewrite !N.Div0.div_div in H1, H2.
  change (10 * 10)%N with 100%N in H1. change (100 * 10)%N with 1000%N in H2.
  assert (n / 1000 < 10)%N as H3 by (by apply N.Div0.div_lt_upper_bound).
  rewrite (N.mod_small (n / 1000)) by done.
  revert H0 H1 H2.
  generalize (n mod 10)%N ((n / 10) mod 10)%N ((n / 100) mod 10)%N
    (n / 10)%N (n / 100)%N (n / 1000)%N.
  intros r0 r1 r2 q1 q2 q3 H0 H1 H2. lia.
Qed.

Lemma strftime_spells dt :
  (1000 ≤ year dt)%N → spells dt (strftime dt DATETIME_FORMAT).
Proof.
  intros Hy. destruct (datetime_bounds dt) as (? & ? & ? & ? & ? & ?).
  rewrite strftime_DATETIME_FORMAT, (decimal_four_digits _ Hy). unfold spells.
  change (pad4 (year dt) ++ ?rest) with
    (digit (year dt / 1000) :: digit (year dt / 100) :: digit (year dt / 10)
       :: digit (year dt) :: rest).
  cbn [take drop app firstn skipn pad2].
  fold (pad2 (month dt)) (pad2 (day dt)) (pad2 (hour dt)) (pad2 (minute dt))
    (pad2 (second dt)).
  fold (pad4 (year dt)).
  by rewrite numeral_pad4, !numeral_pad2.
Qed.

Lemma lower_lowercased s : lowercased s (lower unicodedata_lower s).
Proof.
  unfold lowercased, lower. destruct (forallb is_ascii s); [| done].
  induction s as [| c s IH]; cbn [List.map]; constructor; [| exact IH].
  unfold lowercase_of, ascii_lower. destruct (in_range 65 90 c); [by left | by right].
Qed.

(** C8: a cycle that finds faces, has an output directory and ends
    without an error writes, in that directory, the file
    <stem>_latest.jpg, where the stem is the sanitized name (stripped,
    spaces to underscores, only word characters, hyphens and dots kept)
    in lower case, then, exactly when timestamped saving is on,
    <name>_<timestamp>.jpg with the raw name and the last-detection
    timestamp; it writes no other file.  The timestamp has the shape
    YYYY-MM-DD_HH-MM-SS and spells the clock's year, month, day, hour,
    minute and second. *)
Theorem process_image_saved_files (w : World) (self : FaceClassifyEntity)
    (image : bytes) (predictions : list Prediction.t) (directory : Path) :
  service_answer w self image = inr predictions →
  predictions ≠ [] →
  _save_file_folder self = Some directory →
  result (snd (process_image w self image)) = Returned tt →
  ∃ stem timestamp,
    saved (trace (snd (process_image w self image)))
    = (directory // (stem ++ u "_latest.jpg"))
      :: (if _save_timestamped_file self
          then [directory // (_name self ++ u "_" ++ timestamp ++ u ".jpg")]
          else [])
    ∧ lowercased (sanitize_as_specified unicodedata_isalnum (strip (_name self))) stem
    ∧ _last_detection (fst (process_image w self image)) = Some timestamp
    ∧ matches_template (u "YYYY-MM-DD_HH-MM-SS") timestamp = true
    ∧ spells (dt_util_now w) timestamp.
Proof.
  intros Hans Hne Hdir. rewrite (process_image_faces _ _ _ _ Hans Hne).
  rewrite Hdir. cbn [fst snd]. intros Hret.
  exists (lower unicodedata_lower (get_valid_filename unicodedata_isalnum (_name self))),
    (strftime (dt_util_now w) DATETIME_FORMAT).
  split; [| split; [| split; [reflexivity |]]].
  - rewrite !emit_then_result in Hret. rewrite !emit_then_trace.
    assert (∀ ev tr, (∀ p, ev ≠ EvSave p) → saved (ev :: tr) = saved tr) as Hskip.
    { intros ev tr Hev. destruct ev; try done. by destruct (Hev p). }
    rewrite !Hskip.
    + by rewrite (save_image_returned _ _ _ _ Hret).
    + done.
    + unfold service_request. by destruct (_detect_only self).
  - rewrite <- get_valid_filename_unfold. apply lower_lowercased.
  - pose proof (clock_year w). split; [by apply strftime_shape | by apply strftime_spells].
Qed.

(** Without an output directory nothing is written. *)
Lemma process_image_no_folder w self image :
  _save_file_folder self = None →
  saved (trace (snd (process_image w self image))) = [].
Proof.
  intros Hdir. destruct (service_answer w self image) as [exc | predictions] eqn:Hans.
  - rewrite (process_image_raised _ _ _ _ Hans).
    destruct (issubclass _ _), (_detect_only self) eqn:Hd;
      unfold service_request; rewrite ?Hd; reflexivity.
  - destruct predictions as [| entry predictions].
    + rewrite (process_image_no_faces _ _ _ Hans).
      unfold service_request. by destruct (_detect_only self).
    + rewrite (process_image_faces _ _ _ _ Hans) by done.
      rewrite Hdir. unfold service_request. by destruct (_detect_only self).
Qed.

(** *** The last-detection attribute *)

Lemma exposes_last_detection_iff self :
  exposes_last_detection self ↔ truthy_opt_str (_last_detection self) = true.
Proof.
  unfold exposes_last_detection, device_state_attributes.
  destruct (_detect_only self), (_last_detection self) as [[| c s] |]; simpl;
    rewrite ?lookup_insert_eq, ?lookup_insert_ne, ?lookup_empty by done;
    split; intros Hx; try done; try (by eexists); by destruct Hx.
Qed.

Lemma process_image_last_detection w self image :
  _last_detection (fst (process_image w self image))
  = if finds_faces w self image
    then Some (strftime (dt_util_now w) DATETIME_FORMAT)
    else _last_detection self.
Proof.
  unfold finds_faces.
  destruct (service_answer w self image) as [exc | [| entry predictions]] eqn:Hans.
  - rewrite (process_image_raised _ _ _ _ Hans). reflexivity.
  - rewrite (process_image_no_faces _ _ _ Hans). reflexivity.
  - rewrite (process_image_faces _ _ _ _ Hans) by done. reflexivity.
Qed.

Lemma process_image_client w self image :
  _detect_only (fst (process_image w self image)) = _detect_only self
  ∧ _dsface (fst (process_image w self image)) = _dsface self.
Proof.
  destruct (service_answer w self image) as [exc | [| entry predictions]] eqn:Hans.
  - rewrite (process_image_raised _ _ _ _ Hans). done.
  - rewrite (process_image_no_faces _ _ _ Hans). done.
  - rewrite (process_image_faces _ _ _ _ Hans) by done. done.
Qed.

Lemma finds_faces_same_client w self self' image :
  _detect_only self' = _detect_only self →
  _dsface self' = _dsface self →
  finds_faces w self' image = finds_faces w self image.
Proof.
  unfold finds_faces, service_answer. by intros -> ->.
Qed.

Lemma strftime_truthy dt : truthy_str (strftime dt DATETIME_FORMAT) = true.
Proof. rewrite strftime_DATETIME_FORMAT. by destruct (decimal (year dt)). Qed.

Lemma process_image_keeps_last_detection w self image :
  exposes_last_detection self →
  exposes_last_detection (fst (process_image w self image)).
Proof.
  rewrite !exposes_last_detection_iff, process_image_last_detection.
  destruct (finds_faces w self image); [| done].
  intros _. apply strftime_truthy.
Qed.

Lemma cycles_exposes self frames :
  exposes_last_detection (cycles self frames)
  ↔ exposes_last_detection self
    ∨ Exists (λ frame, finds_faces frame.1 self frame.2 = true) frames.
Proof.
  revert self. induction frames as [| [w image] frames IH]; intros self.
  - simpl. rewrite Exists_nil. tauto.
  - unfold cycles in *. cbn [foldl]. rewrite IH, Exists_cons. cbn [fst snd].
    destruct (process_image_client w self image) as [Hd Hc].
    assert (Exists (λ frame, finds_faces frame.1
                               (fst (process_image w self image)) frame.2 = true) frames
            ↔ Exists (λ frame, finds_faces frame.1 self frame.2 = true) frames) as ->.
    { apply Exists_proper; [| done]. intros [w' image']. cbn [fst snd].
      by rewrite (finds_faces_same_client _ _ _ _ Hd Hc). }
    rewrite !exposes_last_detection_iff, process_image_last_detection.
    destruct (finds_faces w self image); cbn [truthy_opt_str].
    + rewrite strftime_truthy. tauto.
    + split; [tauto |]. intros [? | [? | ?]]; [tauto | done | tauto].
Qed.

(** C9: an adapter exposes the last-detection attribute exactly when
    some cycle since its creation has found a face, and no call of
    process_image, whatever its outcome, takes the attribute away. *)
Theorem last_detection_exposed_iff_detected
    (ip_address : str) (port : Z) (api_key : str) (timeout : Z)
    (detect_only : bool) (save_file_folder : option Path)
    (save_timestamped_file : bool) (camera_entity : str) (name : option str)
    (self0 : FaceClassifyEntity) (frames : list (World * bytes)) :
  __init__ ip_address port api_key timeout detect_only save_file_folder
    save_timestamped_file camera_entity name = Returned self0 →
  (exposes_last_detection (cycles self0 frames)
   ↔ Exists (λ frame, finds_faces frame.1 self0 frame.2 = true) frames)
  ∧ (∀ w self image,
       exposes_last_detection self →
       exposes_last_detection (fst (process_image w self image))).
Proof.
  intros Hinit. split; [| apply process_image_keeps_last_detection].
  rewrite cycles_exposes.
  assert (¬ exposes_last_detection self0) as Hfresh.
  { rewrite exposes_last_detection_iff. unfold __init__ in Hinit.
    destruct (truthy_opt_str name); [by injection Hinit as <- |].
    destruct (split_entity_id camera_entity !! 1%nat); [| done].
    by injection Hinit as <-. }
  tauto.
Qed.

(** *** The teach-face service *)

Lemma entity_id_in_requested c entity_ids :
  entity_id_in c entity_ids = bool_decide (entity_id c ∈ Some <$> entity_ids).
Proof.
  unfold entity_id_in. destruct (entity_id c) as [i |].
  - apply bool_decide_ext. rewrite list_elem_of_fmap.
    split; [by exists i | by intros (? & [= <-] & ?)].
  - symmetry. apply bool_decide_eq_false_2. rewrite list_elem_of_fmap.
    by intros (? & [=] & _).
Qed.

Lemma teach_taught w self name file_path :
  taught (trace (teach w self name file_path)) = [].
Proof.
  unfold teach, open_, register_face.
  destruct (is_allowed_path w file_path); [| done].
  destruct (open_rb w file_path) as [exc | image]; [done |].
  eff_unfold. simpl.
  by destruct (ds_register_face w (_dsface self) name image).
Qed.

Lemma service_handle_teach_all w hass_data service :
  service_handle w hass_data service
  = teach_all w (data_name service) (data_file_path service)
      (requested hass_data service).
Proof.
  unfold service_handle, teach_all, requested.
  destruct (data_entity_id service) as [[| i entity_ids] |]; simpl; try done.
  f_equal. apply List.filter_ext. intros c. apply entity_id_in_requested.
Qed.

Lemma taught_app tr tr' : taught (tr ++ tr') = taught tr ++ taught tr'.
Proof. apply omap_app. Qed.

(** One turn of the loop: the classifier is taught, and the loop goes on
    only if its [teach] returns. *)
Lemma teach_all_cons w name file_path c classifiers :
  taught (trace (teach_all w name file_path (c :: classifiers)))
  = c :: match result (teach w c name file_path) with
         | Returned _ => taught (trace (teach_all w name file_path classifiers))
         | Raised _ => []
         end
  ∧ result (teach_all w name file_path (c :: classifiers))
    = match result (teach w c name file_path) with
      | Returned _ => result (teach_all w name file_path classifiers)
      | Raised exc => Raised exc
      end.
Proof.
  change (teach_all w name file_path (c :: classifiers))
    with ((emit (EvTeach c name file_path) ;; teach w c name file_path) ;;
          teach_all w name file_path classifiers).
  rewrite bind_trace, emit_then_trace, emit_then_result.
  rewrite (bind_result (emit _ ;; teach w c name file_path)), emit_then_result.
  change (taught (?ev :: ?tr1 ++ ?tr2)) with (taught ((ev :: tr1) ++ tr2)).
  rewrite taught_app.
  change (taught (EvTeach c name file_path :: ?tr)) with (c :: taught tr).
  rewrite teach_taught.
  by destruct (result (teach w c name file_path)).
Qed.

(** The loop enters [teach] for the classifiers in order and stops
    with the first call that raises. *)
Lemma teach_all_returned w name file_path classifiers :
  result (teach_all w name file_path classifiers) = Returned tt →
  taught (trace (teach_all w name file_path classifiers)) = classifiers.
Proof.
  induction classifiers as [| c classifiers IH]; [done |].
  destruct (teach_all_cons w name file_path c classifiers) as [-> ->].
  destruct (result (teach w c name file_path)) as [[] | exc]; [| done].
  intros Hret. by rewrite IH.
Qed.

Lemma teach_all_raised w name file_path classifiers exc :
  result (teach_all w name file_path classifiers) = Raised exc →
  ∃ pre c rest,
    classifiers = pre ++ c :: rest
    ∧ taught (trace (teach_all w name file_path classifiers)) = pre ++ [c]
    ∧ result (teach w c name file_path) = Raised exc.
Proof.
  induction classifiers as [| c classifiers IH]; [done |].
  destruct (teach_all_cons w name file_path c classifiers) as [-> ->].
  destruct (result (teach w c name file_path)) as [[] | exc'] eqn:Hc.
  - intros Hret. destruct (IH Hret) as (pre & c' & rest & -> & -> & Hexc).
    by exists (c :: pre), c', rest.
  - intros [= ->]. by exists [], c, classifiers.
Qed.

(** When every call returns, the loop teaches all and returns. *)
Lemma teach_all_all_return w name file_path classifiers :
  Forall (λ c, result (teach w c name file_path) = Returned tt) classifiers →
  result (teach_all w name file_path classifiers) = Returned tt
  ∧ taught (trace (teach_all w name file_path classifiers)) = classifiers.
Proof.
  induction 1 as [| c classifiers Hc _ [IHres IHtaught]]; [done |].
  destruct (teach_all_cons w name file_path c classifiers) as [-> ->].
  rewrite Hc. split; [done | by f_equal].
Qed.

(** The first call that raises ends the loop. *)
Lemma teach_all_first_raise w name file_path pre c rest exc :
  Forall (λ c, result (teach w c name file_path) = Returned tt) pre →
  result (teach w c name file_path) = Raised exc →
  result (teach_all w name file_path (pre ++ c :: rest)) = Raised exc
  ∧ taught (trace (teach_all w name file_path (pre ++ c :: rest))) = pre ++ [c].
Proof.
  intros Hpre Hc. induction Hpre as [| c' pre Hc' _ [IHres IHtaught]]; cbn [app].
  - destruct (teach_all_cons w name file_path c rest) as [-> ->]. by rewrite Hc.
  - destruct (teach_all_cons w name file_path c' (pre ++ c :: rest)) as [-> ->].
    rewrite Hc'. split; [done | by f_equal].
Qed.

(** C10, amended: the teach-face action calls teach on the requested
    adapters (those whose entity id is in the list, or all of them when
    no id is given) in registration order.  If each of these calls
    returns, exactly the requested adapters are taught and the action
    returns; if one raises, the first such call ends the action with its
    error: the adapters before it and that one are taught, those after
    it are not.  When no adapter is requested or matches, nothing happens
    and nothing is raised. *)
Theorem service_handle_teaches_requested (w : World)
    (hass_data : list FaceClassifyEntity) (service : ServiceCall) :
  let returns c :=
    result (teach w c (data_name service) (data_file_path service)) = Returned tt in
  (Forall returns (requested hass_data service) →
   result (service_handle w hass_data service) = Returned tt
   ∧ taught (trace (service_handle w hass_data service)) = requested hass_data service)
  ∧ (∀ pre c rest exc,
       requested hass_data service = pre ++ c :: rest →
       Forall returns pre →
       result (teach w c (data_name service) (data_file_path service)) = Raised exc →
       result (service_handle w hass_data service) = Raised exc
       ∧ taught (trace (service_handle w hass_data service)) = pre ++ [c])
  ∧ (requested hass_data service = [] →
     service_handle w hass_data service = ([], Returned tt)).
Proof.
  intros returns. rewrite service_handle_teach_all.
  split; [apply teach_all_all_return |].
  split; [| by intros ->].
  intros pre c rest exc -> Hpre Hc. by apply teach_all_first_raise.
Qed.

End AdapterFacts.

(** ** The household at work *)

Lemma front_door_created :
  __init__ (ext := plain_externals) (u "192.168.1.10") 5000 [] 10 false
    (Some (PathOf (u "/config/www"))) true (u "camera.front_door") None
  = Returned front_door.
Proof. reflexivity. Qed.

Lemma save_image_bad_data_raises_NameError_witness :
  save_image (ext := plain_externals) bad_frame front_door [x00]
    (PathOf (u "/config/www"))
  = ([], Raised (Exn NameError (u "UnidentifiedImageError")))
  ∧ result (snd (process_image (ext := plain_externals) bad_frame front_door [x00]))
    = Raised (Exn NameError (u "UnidentifiedImageError"))
  ∧ total_faces (fst (process_image (ext := plain_externals) bad_frame front_door [x00]))
    = Some 2%nat.
Proof.
  destruct (save_image_bad_data_raises_NameError (ext := plain_externals)
              bad_frame front_door [x00] (PathOf (u "/config/www"))
              (Exn UnidentifiedImageError (u "cannot identify image file"))
              two_faces eq_refl) as [Hsave Hcycle].
  split; [exact Hsave |].
  apply Hcycle; [reflexivity | discriminate | reflexivity].
Defined.

Lemma process_image_deepstack_error_witness :
  let '(self', run) :=
    process_image (ext := plain_externals) service_down front_door [x00] in
  result run = Returned tt
  ∧ trace run
    = [service_request front_door [x00];
       EvLog ERROR "Depstack error : %s"
         (ArgExn (Exn DeepstackException (u "Timeout connecting to Deepstack")))]
  ∧ total_faces self' = None
  ∧ _matched self' = ∅
  ∧ _faces self' = []
  ∧ state self' = None.
Proof.
  apply (process_image_deepstack_error (ext := plain_externals)
           service_down front_door [x00]
           (Exn DeepstackException (u "Timeout connecting to Deepstack")));
    reflexivity.
Defined.

Lemma teach_disallowed_path_witness :
  teach fair_weather front_door (u "mallory") (u "/etc/shadow") = ([], Returned tt).
Proof. apply teach_disallowed_path. reflexivity. Defined.

(** The files of an adapter called "Porch Faces". *)
Example porch_faces_files :
  saved (trace (snd (process_image (ext := plain_externals) fair_weather
                       porch_faces [x00])))
  = [ PathOf (u "/config/www") // u "porch_faces_latest.jpg";
      PathOf (u "/config/www") // u "Porch Faces_2020-01-09_23-05-00.jpg" ].
Proof. reflexivity. Qed.

Lemma process_image_saved_files_witness :
  ∃ stem timestamp,
    saved (trace (snd (process_image (ext := plain_externals) fair_weather
                         porch_faces [x00])))
    = (PathOf (u "/config/www") // (stem ++ u "_latest.jpg"))
      :: (if _save_timestamped_file porch_faces
          then [PathOf (u "/config/www")
                // (_name porch_faces ++ u "_" ++ timestamp ++ u ".jpg")]
          else [])
    ∧ lowercased (ext := plain_externals)
        (sanitize_as_specified (unicodedata_isalnum (Externals := plain_externals))
           (strip (_name porch_faces))) stem
    ∧ _last_detection (fst (process_image (ext := plain_externals) fair_weather
                              porch_faces [x00])) = Some timestamp
    ∧ matches_template (u "YYYY-MM-DD_HH-MM-SS") timestamp = true
    ∧ spells (dt_util_now fair_weather) timestamp.
Proof.
  apply (process_image_saved_files (ext := plain_externals) fair_weather porch_faces
           [x00] two_faces (PathOf (u "/config/www")));
    [reflexivity | discriminate | reflexivity | reflexivity].
Defined.

Lemma last_detection_exposed_iff_detected_witness :
  (exposes_last_detection
     (cycles (ext := plain_externals) front_door
        [(service_down, [x00]); (fair_weather, [x00]); (service_down, [x00])])
   ↔ Exists (λ frame, finds_faces frame.1 front_door frame.2 = true)
       [(service_down, [x00]); (fair_weather, [x00]); (service_down, [x00])])
  ∧ (∀ w self image,
       exposes_last_detection self →
       exposes_last_detection (fst (process_image (ext := plain_externals) w self image))).
Proof.
  apply (last_detection_exposed_iff_detected (ext := plain_externals)
           (u "192.168.1.10") 5000 [] 10 false
           (Some (PathOf (u "/config/www"))) true (u "camera.front_door") None).
  reflexivity.
Defined.

(** C10, as stated, fails: when the file to teach from is missing, the
    first teach call raises and the adapters after it are never taught,
    although all adapters were requested. *)
Lemma service_handle_stops_at_first_error :
  requested [porch; garage] teach_everyone = [porch; garage]
  ∧ taught (trace (service_handle missing_file
                     [porch; garage] teach_everyone))
    = [porch]
  ∧ result (service_handle missing_file
              [porch; garage] teach_everyone)
    = Raised (Exn FileNotFoundError (u "No such file or directory"))
  ∧ taught (trace (service_handle missing_file
                     [porch; garage] teach_everyone))
    ≠ requested [porch; garage] teach_everyone.
Proof.
  repeat split.
  intros Heq. apply (f_equal length) in Heq. vm_compute in Heq. discriminate.
Qed.

Lemma service_handle_teaches_requested_witness :
  result (service_handle missing_file [garage; porch; garage]
            {| data_entity_id := Some [u "image_processing.deepstack_face_porch"];
               data_name := u "alice";
               data_file_path := u "/config/www/alice.jpg" |})
  = Raised (Exn FileNotFoundError (u "No such file or directory"))
  ∧ taught (trace (service_handle missing_file [garage; porch; garage]
                     {| data_entity_id := Some [u "image_processing.deepstack_face_porch"];
                        data_name := u "alice";
                        data_file_path := u "/config/www/alice.jpg" |}))
    = [] ++ [porch].
Proof.
  destruct (service_handle_teaches_requested missing_file [garage; porch; garage]
              {| data_entity_id := Some [u "image_processing.deepstack_face_porch"];
                 data_name := u "alice";
                 data_file_path := u "/config/www/alice.jpg" |}) as (_ & Hraise & _).
  apply (Hraise [] porch []); [reflexivity | constructor | reflexivity].
Defined.

(** * Further properties *)

(** ** The sanitizer on names it need not change *)

Section SanitizerMore.
Variable unicode_isalnum : char → bool.

(** No white-space character is alphanumeric; for the characters outside
    ASCII this is a fact of the Unicode tables. *)
Hypothesis space_not_alnum : ∀ c, isspace c = true → unicode_isalnum c = false.

Lemma allowed_not_space c : allowed unicode_isalnum c → isspace c = false.
Proof.
  intros Hc. destruct (isspace c) eqn:Hsp; [exfalso | done].
  pose proof (space_not_alnum c Hsp) as Htab.
  unfold allowed, is_word, isalnum, is_ascii, ascii_isalnum, in_range in Hc.
  unfold isspace, in_range in Hsp. rewrite Htab in Hc.
  revert Hc Hsp. destruct (N.ltb_spec c 128) as [Hlt | Hge];
    rewrite ?orb_true_iff, ?andb_true_iff, ?N.leb_le, ?N.eqb_eq;
    intros Hc Hsp; lia.
Qed.

Lemma lstrip_no_space s : Forall (λ c, isspace c = false) s → lstrip s = s.
Proof. destruct 1 as [| c s Hc _]; simpl; [done | by rewrite Hc]. Qed.

Lemma strip_no_space s : Forall (λ c, isspace c = false) s → strip s = s.
Proof.
  intros Hs. unfold strip, rstrip. rewrite (lstrip_no_space s Hs).
  rewrite lstrip_no_space; [apply rev_involutive |].
  apply Forall_forall. intros c Hc. rewrite list_elem_of_In, <- in_rev in Hc.
  rewrite Forall_forall in Hs. apply Hs. by apply list_elem_of_In.
Qed.

Lemma sanitize_allowed s :
  Forall (allowed unicode_isalnum) s →
  re_sub_negclass_empty unicode_isalnum filename_class (replace 32%N 95%N s) = s.
Proof.
  unfold re_sub_negclass_empty, replace.
  induction 1 as [| c s Hc _ IH]; cbn [List.filter List.map]; [done |].
  assert (c ≠ 32%N) as Hne.
  { intros ->. by pose proof (allowed_not_space _ Hc). }
  apply N.eqb_neq in Hne. rewrite Hne, class_matches_filename_class.
  assert (is_word unicode_isalnum c || (c =? 45)%N || (c =? 46)%N = true) as ->.
  { destruct Hc as [-> | [-> | ->]]; [done | |]; by rewrite ?orb_true_r. }
  by rewrite IH.
Qed.

Lemma get_valid_filename_allowed s :
  Forall (allowed unicode_isalnum) s → get_valid_filename unicode_isalnum s = s.
Proof.
  intros Hs. unfold get_valid_filename. rewrite strip_no_space.
  - by apply sanitize_allowed.
  - eapply Forall_impl; [exact Hs | apply allowed_not_space].
Qed.

(** X1: the sanitizer leaves a name as it is exactly when the name is
    made of word characters, hyphens and dots only; so sanitizing twice
    is sanitizing once. *)
Theorem get_valid_filename_fixed_points (name : str) :
  (get_valid_filename unicode_isalnum name = name ↔ Forall (allowed unicode_isalnum) name)
  ∧ get_valid_filename unicode_isalnum (get_valid_filename unicode_isalnum name)
    = get_valid_filename unicode_isalnum name.
Proof.
  assert (Forall (allowed unicode_isalnum) (get_valid_filename unicode_isalnum name)) as Hout.
  { apply Forall_forall. intros c. apply get_valid_filename_chars. }
  split; [split |].
  - intros Heq. by rewrite <- Heq.
  - apply get_valid_filename_allowed.
  - by apply get_valid_filename_allowed.
Qed.

End SanitizerMore.

Lemma get_valid_filename_fixed_points_witness :
  get_valid_filename (λ _, false) (get_valid_filename (λ _, false) (u " John Doe! "))
  = get_valid_filename (λ _, false) (u " John Doe! ").
Proof.
  apply (get_valid_filename_fixed_points (λ _, false)). reflexivity.
Defined.

(** ** The name of the latest file *)

Section LatestName.
Context {ext : Externals}.

Lemma lstrip_Forall (P : char → Prop) s : Forall P s → Forall P (lstrip s).
Proof.
  induction 1 as [| c s Hc Hs IH]; simpl; [constructor |].
  destruct (isspace c); [exact IH | by constructor].
Qed.

Lemma strip_Forall (P : char → Prop) s : Forall P s → Forall P (strip s).
Proof.
  intros Hs. unfold strip, rstrip.
  apply List.Forall_rev, lstrip_Forall, List.Forall_rev. by apply lstrip_Forall.
Qed.

Lemma get_valid_filename_ascii s :
  Forall (λ c, is_ascii c = true) s →
  Forall (λ c, is_ascii c = true ∧ allowed unicodedata_isalnum c)
    (get_valid_filename unicodedata_isalnum s).
Proof.
  intros Hs. apply Forall_forall. intros c Hc. split.
  - unfold get_valid_filename, re_sub_negclass_empty, replace in Hc.
    rewrite list_elem_of_In, List.filter_In, List.in_map_iff in Hc.
    destruct Hc as [(c' & Hc' & Hin) _].
    apply (strip_Forall _ _) in Hs. rewrite Forall_forall in Hs.
    apply list_elem_of_In, Hs in Hin.
    destruct (c' =? 32)%N; by subst.
  - by apply get_valid_filename_chars in Hc.
Qed.

Lemma ascii_lower_plain c :
  is_ascii c = true → allowed unicodedata_isalnum c → is_plain (ascii_lower c) = true.
Proof.
  unfold allowed, is_word, isalnum, ascii_isalnum, ascii_lower, is_plain, in_range.
  intros ->. destruct (N.leb_spec 65 c), (N.leb_spec c 90); cbn [andb];
    rewrite ?orb_true_iff, ?andb_true_iff, ?N.leb_le, ?N.eqb_eq; lia.
Qed.

Lemma latest_save_path_plain (self : FaceClassifyEntity) (directory : Path) :
  Forall (λ c, is_ascii c = true) (_name self) →
  ∃ file_name,
    latest_save_path self directory = directory // file_name
    ∧ Forall (λ c, is_plain c = true) file_name.
Proof.
  intros Hname. eexists. split; [reflexivity |].
  pose proof (get_valid_filename_ascii _ Hname) as Hout.
  apply Forall_app. split; [| by repeat constructor].
  unfold lower.
  assert (forallb is_ascii (get_valid_filename unicodedata_isalnum (_name self)) = true)
    as ->.
  { apply forallb_forall. intros c Hc. rewrite Forall_forall in Hout.
    by apply list_elem_of_In, Hout in Hc as [? _]. }
  apply Forall_forall. intros c Hc.
  rewrite list_elem_of_In, List.in_map_iff in Hc. destruct Hc as (c' & <- & Hc').
  rewrite Forall_forall in Hout. apply list_elem_of_In, Hout in Hc' as [? ?].
  by apply ascii_lower_plain.
Qed.

(** Whatever happens, the first file [save_image] writes is the latest
    file. *)
Lemma save_image_first_saved w self image directory p :
  head (saved (trace (save_image w self image directory))) = Some p →
  p = latest_save_path self directory.
Proof.
  unfold save_image, save_image_in, save. cbv zeta.
  fold (latest_save_path self directory).
  fold (timestamp_save_path self directory (str_of_opt (_last_detection self))).
  destruct (image_open w image) as [exc |];
    [intros Hp; vm_compute in Hp; discriminate |].
  destruct (img_save w (latest_save_path self directory)) as [e1 |];
    [intros Hp; vm_compute in Hp; discriminate |].
  destruct (_save_timestamped_file self); [| by intros [= <-]].
  by destruct (img_save w (timestamp_save_path self directory _)); intros [= <-].
Qed.

(** X2: when the adapter's name is ASCII, the first file save_image
    writes, the latest file, lies directly in the given directory under a
    name that holds nothing but lower-case letters, digits, underscores,
    hyphens and dots: no path separator, no white space. *)
Theorem save_image_latest_name_plain (w : World) (self : FaceClassifyEntity)
    (image : bytes) (directory p : Path) :
  Forall (λ c, is_ascii c = true) (_name self) →
  head (saved (trace (save_image w self image directory))) = Some p →
  ∃ file_name,
    p = directory // file_name ∧ Forall (λ c, is_plain c = true) file_name.
Proof.
  intros Hname Hp. apply save_image_first_saved in Hp as ->.
  by apply latest_save_path_plain.
Qed.

End LatestName.

Lemma save_image_latest_name_plain_witness :
  ∃ file_name,
    PathOf (u "/config/www") // u "deepstack_face_front_door_latest.jpg"
    = PathOf (u "/config/www") // file_name
    ∧ Forall (λ c, is_plain c = true) file_name.
Proof.
  apply (save_image_latest_name_plain (ext := plain_externals) fair_weather
           front_door [x00] (PathOf (u "/config/www"))).
  - by repeat constructor.
  - reflexivity.
Defined.

(** ** A processing cycle *)

Section CycleFacts.
Context {ext : Externals}.

(** [save_image] only writes files and logs. *)
Lemma save_image_events w self image directory :
  Forall (λ ev, is_request ev = false
                ∧ ∀ faces total, ev ≠ EvProcessFaces faces total)
    (trace (save_image w self image directory)).
Proof.
  unfold save_image, save_image_in, save. cbv zeta.
  fold (latest_save_path self directory).
  fold (timestamp_save_path self directory (str_of_opt (_last_detection self))).
  destruct (image_open w image) as [exc |]; [by vm_compute |].
  destruct (img_save w (latest_save_path self directory)) as [e1 |];
    [by vm_compute |].
  destruct (_save_timestamped_file self); [| by repeat constructor].
  by destruct (img_save w (timestamp_save_path self directory _));
    repeat constructor.
Qed.

Lemma save_image_requests w self image directory :
  requests (trace (save_image w self image directory)) = [].
Proof.
  pose proof (save_image_events w self image directory) as Hev.
  unfold requests. induction Hev as [| ev tr [Hreq _] _ IH]; simpl; [done |].
  by rewrite Hreq.
Qed.

Lemma save_image_fired w self image directory :
  fired (trace (save_image w self image directory)) = [].
Proof.
  pose proof (save_image_events w self image directory) as Hev.
  unfold fired. induction Hev as [| ev tr [_ Hfire] _ IH]; simpl; [done |].
  destruct ev; try done. by destruct (Hfire faces total).
Qed.

Lemma service_request_is_request self image :
  is_request (service_request self image) = true.
Proof. unfold service_request. by destruct (_detect_only self). Qed.

Lemma service_request_not_fired self image tr :
  fired (service_request self image :: tr) = fired tr.
Proof. unfold service_request. by destruct (_detect_only self). Qed.

Lemma parse_faces_length predictions :
  length (parse_faces predictions) ≤ length predictions.
Proof.
  induction predictions as [| entry predictions IH]; [done |].
  unfold parse_faces. simpl.
  destruct (Prediction.userid entry) as [userid |]; [| simpl; lia].
  destruct (decide (userid = u "unknown")).
  - fold (parse_faces predictions). lia.
  - rewrite parse_faces_loop_acc, length_app. simpl. lia.
Qed.

(** X3: a cycle in which the service finds no face returns normally
    after the one request, fires no event, logs and writes nothing,
    leaves total_faces None and the tally and faces empty, and keeps the
    last-detection time stamp it had. *)
Theorem process_image_nothing_found (w : World) (self : FaceClassifyEntity)
    (image : bytes) :
  service_answer w self image = inr [] →
  snd (process_image w self image) = ([service_request self image], Returned tt)
  ∧ total_faces (fst (process_image w self image)) = None
  ∧ _matched (fst (process_image w self image)) = ∅
  ∧ _faces (fst (process_image w self image)) = []
  ∧ _last_detection (fst (process_image w self image)) = _last_detection self.
Proof. intros Hans. by rewrite (process_image_no_faces _ _ _ Hans). Qed.

(** X4: an exception of the service call that is not a Deepstack
    exception is not caught: it leaves process_image, nothing is logged,
    and the adapter has been reset to no faces. *)
Theorem process_image_other_error (w : World) (self : FaceClassifyEntity)
    (image : bytes) (exc : exn) :
  service_answer w self image = inl exc →
  issubclass (exn_class exc) DeepstackException = false →
  snd (process_image w self image) = ([service_request self image], Raised exc)
  ∧ total_faces (fst (process_image w self image)) = None
  ∧ _matched (fst (process_image w self image)) = ∅
  ∧ _faces (fst (process_image w self image)) = []
  ∧ _last_detection (fst (process_image w self image)) = _last_detection self.
Proof.
  intros Hans Hcls. by rewrite (process_image_raised _ _ _ _ Hans), Hcls.
Qed.

(** X5: process_image never changes what the constructor configured:
    entity id, client, mode, output directory, time-stamp flag, camera
    and name are the same after every call, whatever its outcome. *)
Theorem process_image_same_config (w : World) (self : FaceClassifyEntity)
    (image : bytes) :
  same_config self (fst (process_image w self image)).
Proof.
  destruct (service_answer w self image) as [exc | [| entry predictions]] eqn:Hans.
  - by rewrite (process_image_raised _ _ _ _ Hans).
  - by rewrite (process_image_no_faces _ _ _ Hans).
  - by rewrite (process_image_faces _ _ _ _ Hans).
Qed.

(** X6: after every call of process_image the state agrees with the
    stored faces: total_faces is None when the list is empty and its
    length otherwise, so it is never 0; and with no faces the tally is
    empty. *)
Theorem process_image_state_consistent (w : World) (self : FaceClassifyEntity)
    (image : bytes) :
  let self' := fst (process_image w self image) in
  total_faces self'
  = match _faces self' with
    | [] => None
    | faces => Some (length faces)
    end
  ∧ total_faces self' ≠ Some 0%nat
  ∧ (_faces self' = [] → _matched self' = ∅).
Proof.
  destruct (service_answer w self image) as [exc | [| entry predictions]] eqn:Hans.
  - by rewrite (process_image_raised _ _ _ _ Hans).
  - by rewrite (process_image_no_faces _ _ _ Hans).
  - by rewrite (process_image_faces _ _ _ _ Hans).
Qed.

(** X7: nothing of an earlier frame's result survives: two adapters
    that agree on their configuration and on the last-detection time
    stamp come out of process_image equal and do the same, whatever
    faces, tally and total each held before. *)
Theorem process_image_forgets (w : World) (self1 self2 : FaceClassifyEntity)
    (image : bytes) :
  same_config self1 self2 →
  _last_detection self2 = _last_detection self1 →
  process_image w self1 image = process_image w self2 image.
Proof.
  destruct self1, self2. unfold same_config. cbn.
  intros (-> & -> & -> & -> & -> & -> & ->) ->. reflexivity.
Qed.

(** X8: process_image fires the host's face event exactly once in a
    cycle that finds faces, with the parsed faces and the number of all
    faces found, which is never less than the number of parsed ones, and
    it fires nothing in any other cycle; a failure of the save that
    follows does not take the event back. *)
Theorem process_image_fires_once (w : World) (self : FaceClassifyEntity)
    (image : bytes) :
  fired (trace (snd (process_image w self image)))
  = match service_answer w self image with
    | inr (entry :: predictions) =>
        [(parse_faces (entry :: predictions), Some (length (entry :: predictions)))]
    | _ => []
    end
  ∧ ∀ faces total,
      (faces, Some total) ∈ fired (trace (snd (process_image w self image))) →
      length faces ≤ total.
Proof.
  assert (fired (trace (snd (process_image w self image)))
          = match service_answer w self image with
            | inr (entry :: predictions) =>
                [(parse_faces (entry :: predictions),
                  Some (length (entry :: predictions)))]
            | _ => []
            end) as Hfired.
  { destruct (service_answer w self image) as [exc | [| entry predictions]] eqn:Hans.
    - rewrite (process_image_raised _ _ _ _ Hans).
      destruct (issubclass _ _); cbn [snd trace fst]; by rewrite service_request_not_fired.
    - rewrite (process_image_no_faces _ _ _ Hans). cbn [snd trace fst].
      by rewrite service_request_not_fired.
    - rewrite (process_image_faces _ _ _ _ Hans) by done. cbn [snd].
      rewrite !emit_then_trace, service_request_not_fired.
      change (fired (EvProcessFaces ?f ?t :: ?tr)) with ((f, t) :: fired tr).
      destruct (_save_file_folder self); [| done].
      by rewrite save_image_fired. }
  split; [exact Hfired |].
  intros faces total. rewrite Hfired.
  destruct (service_answer w self image) as [exc | [| entry predictions]];
    [by intros ?%elem_of_nil .. |].
  intros [= -> ->]%list_elem_of_singleton. apply parse_faces_length.
Qed.

(** X9: in detect-only mode, when no record of the answer carries an
    identity, the event lists no face although it counts them all. *)
Theorem process_image_detect_only_event (w : World) (self : FaceClassifyEntity)
    (image : bytes) (predictions : list Prediction.t) :
  _detect_only self = true →
  ds_detect w (_dsface self) image = inr predictions →
  predictions ≠ [] →
  Forall (λ entry, Prediction.userid entry = None) predictions →
  fired (trace (snd (process_image w self image)))
  = [([], Some (length predictions))]
  ∧ total_faces (fst (process_image w self image)) = Some (length predictions).
Proof.
  intros Hmode Hans Hne Hall.
  assert (service_answer w self image = inr predictions) as Hans'.
  { unfold service_answer. by rewrite Hmode. }
  assert (parse_faces predictions = []) as Hparse.
  { destruct Hall as [| entry predictions Hid _]; [done |].
    unfold parse_faces. simpl. by rewrite Hid. }
  rewrite (process_image_faces _ _ _ _ Hans' Hne). cbn [fst snd].
  split; [| done].
  rewrite !emit_then_trace, service_request_not_fired, Hparse.
  change (fired (EvProcessFaces ?f ?t :: ?tr)) with ((f, t) :: fired tr).
  destruct (_save_file_folder self); [| done].
  by rewrite save_image_fired.
Qed.

(** X10: every call of process_image sends exactly one request to the
    service, the one of the configured mode (detection in detect-only
    mode, recognition otherwise), whatever the answer and whatever
    happens afterwards. *)
Theorem process_image_one_request (w : World) (self : FaceClassifyEntity)
    (image : bytes) :
  requests (trace (snd (process_image w self image)))
  = [if _detect_only self then EvDetect (_dsface self) image
     else EvRecognise (_dsface self) image].
Proof.
  change (if _detect_only self then _ else _) with (service_request self image).
  pose proof (service_request_is_request self image) as Hreq.
  destruct (service_answer w self image) as [exc | [| entry predictions]] eqn:Hans.
  - rewrite (process_image_raised _ _ _ _ Hans).
    destruct (issubclass _ _); cbn [snd trace fst requests List.filter];
      by rewrite Hreq.
  - rewrite (process_image_no_faces _ _ _ Hans).
    cbn [snd trace fst requests List.filter]. by rewrite Hreq.
  - rewrite (process_image_faces _ _ _ _ Hans) by done. cbn [snd].
    rewrite !emit_then_trace. unfold requests. cbn [List.filter is_request].
    rewrite Hreq. f_equal.
    destruct (_save_file_folder self); [| done].
    apply save_image_requests.
Qed.

(** X11: save_image writes its files one after the other and undoes
    nothing: when writing the latest file raises, nothing has been
    written; when writing the time-stamped file raises, the latest file
    is already there; either way the error leaves save_image and the
    save is not logged. *)
Theorem save_image_write_error (w : World) (self : FaceClassifyEntity)
    (image : bytes) (directory : Path) (exc : exn) :
  image_open w image = None →
  (img_save w (latest_save_path self directory) = Some exc →
   save_image w self image directory = ([], Raised exc))
  ∧ (img_save w (latest_save_path self directory) = None →
     _save_timestamped_file self = true →
     img_save w (timestamp_save_path self directory (str_of_opt (_last_detection self)))
     = Some exc →
     save_image w self image directory
     = ([EvSave (latest_save_path self directory)], Raised exc)).
Proof.
  intros Hopen. unfold save_image, save_image_in, save. cbv zeta.
  fold (latest_save_path self directory).
  fold (timestamp_save_path self directory (str_of_opt (_last_detection self))).
  rewrite Hopen. split.
  - by intros ->.
  - by intros -> -> ->.
Qed.

End CycleFacts.

(** ** Teaching a face *)

Section TeachFacts.
Context {ext : Externals}.

(** X12: with an allowed path, teach opens the file first; it sends one
    registration request, carrying the given name and what it read, when
    the file opens and none when it does not; it logs the success only
    when the registration returned; an error of either step leaves
    teach. *)
Theorem teach_allowed_path (w : World) (self : FaceClassifyEntity)
    (name file_path : str) :
  is_allowed_path w file_path = true →
  head (trace (teach w self name file_path)) = Some (EvOpen file_path)
  ∧ requests (trace (teach w self name file_path))
    = match open_rb w file_path with
      | inr image => [EvRegisterFace (_dsface self) name image]
      | inl _ => []
      end
  ∧ result (teach w self name file_path)
    = match open_rb w file_path with
      | inl exc => Raised exc
      | inr image =>
          match ds_register_face w (_dsface self) name image with
          | Some exc => Raised exc
          | None => Returned tt
          end
      end
  ∧ logged (trace (teach w self name file_path))
    = match result (teach w self name file_path) with
      | Returned _ => [(INFO, "Depstack face taught name : %s", ArgStr name)]
      | Raised _ => []
      end.
Proof.
  intros Hpath. unfold teach, open_, register_face. rewrite Hpath. cbn [negb].
  destruct (open_rb w file_path) as [exc | image]; [done |].
  eff_unfold. simpl.
  by destruct (ds_register_face w (_dsface self) name image).
Qed.

Lemma filter_sublist {A} (f : A → bool) (l : list A) : List.filter f l `sublist_of` l.
Proof.
  induction l as [| x l IH]; simpl; [constructor |].
  destruct (f x); by constructor.
Qed.

Lemma requested_sublist hass_data service :
  requested hass_data service `sublist_of` hass_data.
Proof.
  unfold requested. destruct (data_entity_id service) as [[| i ids] |]; try done.
  apply filter_sublist.
Qed.

(** What has been taught is an initial part of what was requested. *)
Lemma service_handle_taught_prefix w hass_data service :
  ∃ rest,
    requested hass_data service
    = taught (trace (service_handle w hass_data service)) ++ rest.
Proof.
  rewrite service_handle_teach_all.
  set (run := teach_all w (data_name service) (data_file_path service)
                (requested hass_data service)).
  destruct (result run) as [[] | exc] eqn:Hres.
  - exists []. subst run. rewrite (teach_all_returned _ _ _ _ Hres). by rewrite app_nil_r.
  - subst run. destruct (teach_all_raised _ _ _ _ _ Hres) as (pre & c & rest & Hreq & -> & _).
    exists rest. by rewrite Hreq, <- app_assoc.
Qed.

(** X13: the teach-face action teaches registered adapters only, none
    more often than it is registered, and in registration order: the
    adapters it teaches form a sublist of the registry, whichever ids
    were asked for and however the calls end. *)
Theorem service_handle_teaches_registered (w : World)
    (hass_data : list FaceClassifyEntity) (service : ServiceCall) :
  taught (trace (service_handle w hass_data service)) `sublist_of` hass_data.
Proof.
  destruct (service_handle_taught_prefix w hass_data service) as [rest Hreq].
  etrans; [| apply requested_sublist].
  rewrite Hreq. by apply sublist_inserts_r.
Qed.

(** X14: an empty list of entity ids selects like no list at all; with a
    non-empty list, an adapter is taught only if it has an entity id and
    that id is in the list, so an adapter the host has not yet given an
    id is never taught. *)
Theorem service_handle_selection (w : World)
    (hass_data : list FaceClassifyEntity) (name file_path : str) :
  service_handle w hass_data
    {| data_entity_id := Some []; data_name := name; data_file_path := file_path |}
  = service_handle w hass_data
      {| data_entity_id := None; data_name := name; data_file_path := file_path |}
  ∧ ∀ i entity_ids c,
      c ∈ taught (trace (service_handle w hass_data
                           {| data_entity_id := Some (i :: entity_ids);
                              data_name := name; data_file_path := file_path |})) →
      ∃ j, entity_id c = Some j ∧ j ∈ i :: entity_ids.
Proof.
  split; [reflexivity |].
  intros i entity_ids c Hc.
  destruct (service_handle_taught_prefix w hass_data
              {| data_entity_id := Some (i :: entity_ids);
                 data_name := name; data_file_path := file_path |}) as [rest Hreq].
  assert (c ∈ requested hass_data
                {| data_entity_id := Some (i :: entity_ids);
                   data_name := name; data_file_path := file_path |}) as Hin.
  { rewrite Hreq. apply elem_of_app. by left. }
  unfold requested in Hin. cbn [data_entity_id] in Hin.
  rewrite list_elem_of_In, List.filter_In in Hin. destruct Hin as [_ Hin].
  apply bool_decide_eq_true_1, list_elem_of_fmap in Hin as (j & Hj & Hin).
  by exists j.
Qed.

End TeachFacts.

(** ** What the host sees *)

Section AttributeFacts.
Context {ext : Externals}.

(** X15: which attributes an adapter shows depends on its mode only, the
    time stamp apart: in detect-only mode [detect_only], set to true, and
    neither tally nor count; otherwise the tally and its size as count,
    and no [detect_only]; there is no other attribute. *)
Theorem device_state_attributes_by_mode (self : FaceClassifyEntity) :
  dom (device_state_attributes self)
  = (if _detect_only self then {["detect_only"]}
     else {["matched_faces"; "total_matched_faces"]})
    ∪ (if truthy_opt_str (_last_detection self)
       then {["last_target_detection"]} else ∅)
  ∧ device_state_attributes self !! "detect_only"
    = (if _detect_only self then Some (AttrBool true) else None)
  ∧ device_state_attributes self !! "matched_faces"
    = (if _detect_only self then None else Some (AttrMatched (_matched self)))
  ∧ device_state_attributes self !! "total_matched_faces"
    = (if _detect_only self then None else Some (AttrInt (size (_matched self)))).
Proof.
  unfold device_state_attributes.
  destruct (_detect_only self), (_last_detection self) as [[| c s] |];
    cbn [negb truthy_opt_str truthy_str];
    rewrite ?dom_insert_L, ?dom_empty_L; (split; [set_solver |]);
    repeat split; by simplify_map_eq.
Qed.

(** X16: after a cycle that found faces, an adapter in recognise mode
    shows the tally the Deepstack library computes from the faces of
    this frame, its size, and the time of this frame; the state is the
    number of faces. *)
Theorem attributes_after_detection (w : World) (self : FaceClassifyEntity)
    (image : bytes) (predictions : list Prediction.t) :
  _detect_only self = false →
  ds_recognise w (_dsface self) image = inr predictions →
  predictions ≠ [] →
  let self' := fst (process_image w self image) in
  device_state_attributes self' !! "matched_faces"
  = Some (AttrMatched (get_recognised_faces predictions))
  ∧ device_state_attributes self' !! "total_matched_faces"
    = Some (AttrInt (size (get_recognised_faces predictions)))
  ∧ device_state_attributes self' !! "last_target_detection"
    = Some (AttrStr (strftime (dt_util_now w) DATETIME_FORMAT))
  ∧ state self' = Some (length predictions).
Proof.
  intros Hmode Hans Hne.
  assert (service_answer w self image = inr predictions) as Hans'.
  { unfold service_answer. by rewrite Hmode. }
  rewrite (process_image_faces _ _ _ _ Hans' Hne). cbn [fst].
  unfold device_state_attributes, detected, reset.
  cbn [_detect_only _matched _last_detection total_faces state
       set_matched set_total_faces set_last_detection set_faces].
  rewrite Hmode, strftime_truthy. cbn [negb].
  repeat split; by simplify_map_eq.
Qed.

(** X17: the constructor takes a non-empty name as it is; without a
    name, or with an empty one, it names the adapter "deepstack_face "
    followed by the second part of the camera's entity id, and raises
    IndexError when the id has no second part.  A new adapter has no
    state and shows no time stamp. *)
Theorem init_outcome (ip_address : str) (port : Z) (api_key : str) (timeout : Z)
    (detect_only : bool) (save_file_folder : option Path)
    (save_timestamped_file : bool) (camera_entity : str) (name : option str) :
  match __init__ ip_address port api_key timeout detect_only save_file_folder
          save_timestamped_file camera_entity name with
  | Returned self =>
      Some (_name self)
      = (if truthy_opt_str name then name else default_name camera_entity)
      ∧ _camera self = camera_entity
      ∧ state self = None
      ∧ device_state_attributes self !! "last_target_detection" = None
  | Raised exc =>
      truthy_opt_str name = false
      ∧ default_name camera_entity = None
      ∧ exn_class exc = IndexError
  end.
Proof.
  unfold __init__, default_name.
  destruct name as [[| c name] |]; cbn [truthy_opt_str truthy_str str_of_opt].
  2: { unfold device_state_attributes. cbn. repeat split.
       destruct detect_only; by simplify_map_eq. }
  all: destruct (split_entity_id camera_entity !! 1%nat) as [camera_name |];
    cbn; [| done]; unfold device_state_attributes; cbn; repeat split;
    destruct detect_only; by simplify_map_eq.
Qed.

End AttributeFacts.

(** ** Platform setup *)

Section SetupFacts.
Context {ext : Externals}.

Lemma init_returned config camera self :
  __init__ (conf_ip_address config) (conf_port config) (conf_api_key config)
    (conf_timeout config) (conf_detect_only config) (folder_of config)
    (conf_save_timestamped_file config)
    (camera_entity_id camera) (camera_name camera) = Returned self →
  camera_ok camera ∧ _camera self = camera_entity_id camera ∧ fresh_of config self.
Proof.
  unfold __init__, camera_ok, fresh_of.
  destruct (truthy_opt_str (camera_name camera)).
  - intros [= <-]. cbn. split; [by left | done].
  - destruct (split_entity_id (camera_entity_id camera) !! 1%nat) as [n |] eqn:Hn;
      [| done].
    intros [= <-]. cbn. split; [right; by eexists | done].
Qed.

Lemma init_raised config camera exc :
  __init__ (conf_ip_address config) (conf_port config) (conf_api_key config)
    (conf_timeout config) (conf_detect_only config) (folder_of config)
    (conf_save_timestamped_file config)
    (camera_entity_id camera) (camera_name camera) = Raised exc →
  ¬ camera_ok camera ∧ exn_class exc = IndexError.
Proof.
  unfold __init__, camera_ok.
  destruct (truthy_opt_str (camera_name camera)); [done |].
  destruct (split_entity_id (camera_entity_id camera) !! 1%nat) as [n |] eqn:Hn;
    [done |].
  intros [= <-]. split; [| done]. intros [? | [? ?]]; done.
Qed.

(** The loop builds one adapter per camera, in order, until a
    constructor raises. *)
Lemma setup_cameras_spec config cameras entities registry :
  ∃ built,
    fst (fst (setup_cameras config cameras entities registry)) = entities ++ built
    ∧ snd (fst (setup_cameras config cameras entities registry)) = registry ++ built
    ∧ Forall2 (λ camera self,
                 camera_ok camera
                 ∧ _camera self = camera_entity_id camera ∧ fresh_of config self)
        (take (length built) cameras) built
    ∧ match snd (setup_cameras config cameras entities registry) with
      | Returned _ => length built = length cameras
      | Raised exc =>
          exn_class exc = IndexError
          ∧ ∃ camera, cameras !! length built = Some camera ∧ ¬ camera_ok camera
      end.
Proof.
  revert entities registry.
  induction cameras as [| camera cameras IH]; intros entities registry.
  - exists []. cbn. rewrite !app_nil_r. repeat split. constructor.
  - cbn [setup_cameras].
    destruct (__init__ _ _ _ _ _ _ _ _ _) as [self | exc] eqn:Hinit.
    + destruct (IH (entities ++ [self]) (registry ++ [self]))
        as (built & Hents & Hreg & Hbuilt & Hres).
      apply init_returned in Hinit as (Hok & Hcam & Hfresh).
      exists (self :: built). rewrite Hents, Hreg, <- !app_assoc. cbn.
      repeat split; [by constructor |].
      destruct (snd (setup_cameras _ _ _ _)); [by f_equal | done].
    + apply init_raised in Hinit as [Hbad Hcls].
      exists []. cbn. rewrite !app_nil_r. repeat split; [constructor | done |].
      by exists camera.
Qed.

Lemma setup_platform_data (hass : Hass.t) (config : Config) :
  let old := default [] (Hass.data hass !! DATA_DEEPSTACK) in
  let run := setup_cameras config (conf_source config) [] old in
  Hass.data (fst (setup_platform hass config))
  = <[DATA_DEEPSTACK := snd (fst run)]> (Hass.data hass)
  ∧ snd (setup_platform hass config) = snd run
  ∧ Hass.added (fst (setup_platform hass config))
    = match snd run with
      | Returned _ => Hass.added hass ++ [fst (fst run)]
      | Raised _ => Hass.added hass
      end
  ∧ Hass.services (fst (setup_platform hass config))
    = match snd run with
      | Returned _ => Hass.services hass ++ [(DOMAIN, SERVICE_TEACH_FACE)]
      | Raised _ => Hass.services hass
      end.
Proof.
  unfold setup_platform.
  destruct (Hass.data hass !! DATA_DEEPSTACK) as [old |] eqn:Hold; cbn [default].
  - rewrite Hold. cbn [default].
    destruct (setup_cameras _ _ _ _) as [[entities registry] [[] | exc]]; by cbn.
  - rewrite lookup_insert_eq. cbn [default].
    destruct (setup_cameras _ _ _ _) as [[entities registry] [[] | exc]]; cbn;
      by rewrite insert_insert_eq.
Qed.

(** X18: when every camera has a name or an entity id with a second
    part, setup_platform returns; it has built one fresh adapter per
    camera, in the order of the configuration, appended them to the
    adapters already in hass.data, handed exactly the new ones to
    add_devices in one call, and registered the teach-face service. *)
Theorem setup_platform_ok (hass : Hass.t) (config : Config) :
  Forall camera_ok (conf_source config) →
  ∃ entities,
    setup_platform hass config
    = (Hass.mk
         (<[DATA_DEEPSTACK := default [] (Hass.data hass !! DATA_DEEPSTACK) ++ entities]>
            (Hass.data hass))
         (Hass.added hass ++ [entities])
         (Hass.services hass ++ [(DOMAIN, SERVICE_TEACH_FACE)]),
       Returned tt)
    ∧ Forall2 (λ camera self,
                 _camera self = camera_entity_id camera ∧ fresh_of config self)
        (conf_source config) entities.
Proof.
  intros Hok.
  destruct (setup_platform_data hass config) as (Hdata & Hres & Hadded & Hserv).
  destruct (setup_cameras_spec config (conf_source config) []
              (default [] (Hass.data hass !! DATA_DEEPSTACK)))
    as (built & Hents & Hreg & Hbuilt & Hrun).
  cbv zeta in *. rewrite Hreg in Hdata. rewrite Hents in Hadded. cbn in Hadded.
  destruct (snd (setup_cameras _ _ _ _)) as [[] | exc].
  - exists built. split.
    + destruct (setup_platform hass config) as [[data added services] res].
      cbn in *. by subst.
    + rewrite take_ge in Hbuilt by lia.
      eapply Forall2_impl; [exact Hbuilt | by intros ?? (_ & ? & ?)].
  - destruct Hrun as (_ & camera & Hcam & Hbad). exfalso. apply Hbad.
    rewrite Forall_forall in Hok. apply Hok. by eapply list_elem_of_lookup_2.
Qed.

(** X19: when the constructor raises for a camera, setup_platform
    raises IndexError; the adapters of the cameras before that one stay
    in hass.data, but add_devices is never called and no service is
    registered. *)
Theorem setup_platform_bad_camera (hass : Hass.t) (config : Config)
    (before after : list CameraConf) (camera : CameraConf) :
  conf_source config = before ++ camera :: after →
  Forall camera_ok before →
  ¬ camera_ok camera →
  ∃ entities exc,
    setup_platform hass config
    = (Hass.mk
         (<[DATA_DEEPSTACK := default [] (Hass.data hass !! DATA_DEEPSTACK) ++ entities]>
            (Hass.data hass))
         (Hass.added hass) (Hass.services hass),
       Raised exc)
    ∧ exn_class exc = IndexError
    ∧ Forall2 (λ camera self,
                 _camera self = camera_entity_id camera ∧ fresh_of config self)
        before entities.
Proof.
  intros Hsrc Hbefore Hbad.
  destruct (setup_platform_data hass config) as (Hdata & Hres & Hadded & Hserv).
  destruct (setup_cameras_spec config (conf_source config) []
              (default [] (Hass.data hass !! DATA_DEEPSTACK)))
    as (built & Hents & Hreg & Hbuilt & Hrun).
  cbv zeta in *. rewrite Hreg in Hdata.
  remember (snd (setup_cameras config (conf_source config) []
                   (default [] (Hass.data hass !! DATA_DEEPSTACK)))) as res eqn:Hr.
  clear Hr. rewrite Hsrc in Hbuilt, Hrun.
  (* the camera at position [length before] is not among those built *)
  assert (length built ≤ length before) as Hle.
  { destruct (decide (length built ≤ length before)) as [| Hgt]; [done |].
    exfalso. apply Hbad.
    assert (take (length built) (before ++ camera :: after) !! length before
            = Some camera) as Hcam.
    { rewrite lookup_take_lt by lia. by rewrite list_lookup_middle. }
    destruct (Forall2_lookup_l _ _ _ _ _ Hbuilt Hcam) as (self & _ & Hok & _).
    exact Hok. }
  destruct res as [[] | exc].
  - rewrite length_app in Hrun. cbn in Hrun. lia.
  - destruct Hrun as (Hcls & bad & Hlook & Hnot).
    assert (length built = length before) as Hlen.
    { destruct (decide (length built < length before)) as [Hlt |]; [| lia].
      exfalso. apply Hnot. rewrite lookup_app_l in Hlook by done.
      rewrite Forall_forall in Hbefore. apply Hbefore.
      by eapply list_elem_of_lookup_2. }
    exists built, exc. split; [| split; [done |]].
    + destruct (setup_platform hass config) as [[data added services] res].
      cbn in *. by subst.
    + rewrite Hlen, take_app_length in Hbuilt.
      eapply Forall2_impl; [exact Hbuilt | by intros ?? (_ & ? & ?)].
Qed.

(** X20: whatever its outcome, setup_platform keeps the adapters that
    were registered before, in their order and at the front of the
    registry, and touches no other key of hass.data. *)
Theorem setup_platform_keeps (hass : Hass.t) (config : Config) :
  (∃ entities,
     Hass.data (fst (setup_platform hass config)) !! DATA_DEEPSTACK
     = Some (default [] (Hass.data hass !! DATA_DEEPSTACK) ++ entities))
  ∧ ∀ key, key ≠ DATA_DEEPSTACK →
      Hass.data (fst (setup_platform hass config)) !! key = Hass.data hass !! key.
Proof.
  destruct (setup_platform_data hass config) as (Hdata & _).
  destruct (setup_cameras_spec config (conf_source config) []
              (default [] (Hass.data hass !! DATA_DEEPSTACK)))
    as (built & _ & Hreg & _).
  cbv zeta in Hdata. rewrite Hreg in Hdata. rewrite Hdata. split.
  - exists built. apply lookup_insert_eq.
  - intros key Hkey. by apply lookup_insert_ne.
Qed.

End SetupFacts.

(** ** Time stamps *)

Section TimestampFacts.
Context {ext : Externals}.








End TimestampFacts.

(** ** One registry for all platforms *)

Section SharedRegistry.
Context {ext : Externals}.

Lemma setup_platform_returned hass config hass' :
  setup_platform hass config = (hass', Returned tt) →
  ∃ entities,
    hass' = Hass.mk
              (<[DATA_DEEPSTACK := default [] (Hass.data hass !! DATA_DEEPSTACK)
                                   ++ entities]> (Hass.data hass))
              (Hass.added hass ++ [entities])
              (Hass.services hass ++ [(DOMAIN, SERVICE_TEACH_FACE)])
    ∧ length entities = length (conf_source config).
Proof.
  intros Hrun.
  destruct (setup_platform_data hass config) as (Hdata & Hres & Hadded & Hserv).
  destruct (setup_cameras_spec config (conf_source config) []
              (default [] (Hass.data hass !! DATA_DEEPSTACK)))
    as (built & Hents & Hreg & _ & Hlen).
  cbv zeta in *. rewrite Hrun in Hdata, Hres, Hadded, Hserv. cbn [fst snd] in *.
  rewrite <- Hres in Hlen, Hadded, Hserv. rewrite Hreg in Hdata.
  rewrite Hents in Hadded. exists built. split; [| done].
  destruct hass' as [data added services]. cbn in *. by subst.
Qed.

(** X22: the registry is shared: after two platform setups that
    returned, hass.data holds the adapters registered before, then one
    per camera of the first configuration, then one per camera of the
    second; add_devices got each batch in its own call and the service
    was registered by both; and a teach-face call without entity ids
    teaches them all, in that order, when no teach call raises. *)
Theorem setups_share_registry (hass hass1 hass2 : Hass.t) (config1 config2 : Config) :
  setup_platform hass config1 = (hass1, Returned tt) →
  setup_platform hass1 config2 = (hass2, Returned tt) →
  ∃ entities1 entities2,
    Hass.data hass2 !! DATA_DEEPSTACK
    = Some (default [] (Hass.data hass !! DATA_DEEPSTACK) ++ entities1 ++ entities2)
    ∧ length entities1 = length (conf_source config1)
    ∧ length entities2 = length (conf_source config2)
    ∧ Hass.added hass2 = Hass.added hass ++ [entities1; entities2]
    ∧ Hass.services hass2
      = Hass.services hass
        ++ [(DOMAIN, SERVICE_TEACH_FACE); (DOMAIN, SERVICE_TEACH_FACE)]
    ∧ ∀ w name file_path registry,
        Hass.data hass2 !! DATA_DEEPSTACK = Some registry →
        result (service_handle w registry
                  {| data_entity_id := None; data_name := name;
                     data_file_path := file_path |}) = Returned tt →
        taught (trace (service_handle w registry
                         {| data_entity_id := None; data_name := name;
                            data_file_path := file_path |}))
        = default [] (Hass.data hass !! DATA_DEEPSTACK) ++ entities1 ++ entities2.
Proof.
  intros (entities1 & -> & Hlen1)%setup_platform_returned
         (entities2 & -> & Hlen2)%setup_platform_returned.
  exists entities1, entities2. cbn [Hass.data Hass.added Hass.services].
  rewrite !lookup_insert_eq. cbn [default]. unfold id.
  rewrite <- !app_assoc.
  repeat split; [done | done |].
  intros w name file_path registry [= <-] Hres.
  rewrite service_handle_teach_all in *.
  by apply teach_all_returned in Hres.
Qed.

End SharedRegistry.

(** ** The second household at work *)

Lemma process_image_nothing_found_witness :
  snd (process_image (ext := plain_externals) nobody_there front_door_busy [x00])
  = ([service_request front_door_busy [x00]], Returned tt).
Proof.
  apply (process_image_nothing_found (ext := plain_externals)
           nobody_there front_door_busy [x00]).
  reflexivity.
Defined.

Lemma process_image_other_error_witness :
  snd (process_image (ext := plain_externals) broken_pipe front_door_busy [x00])
  = ([service_request front_door_busy [x00]],
     Raised (Exn RequestException (u "Connection aborted"))).
Proof.
  apply (process_image_other_error (ext := plain_externals)
           broken_pipe front_door_busy [x00]); reflexivity.
Defined.

Lemma process_image_state_consistent_witness :
  _matched (fst (process_image (ext := plain_externals) service_down
                   front_door_busy [x00])) = ∅.
Proof.
  destruct (process_image_state_consistent (ext := plain_externals) service_down
              front_door_busy [x00]) as (_ & _ & Hmatched).
  apply Hmatched. reflexivity.
Defined.

Lemma process_image_forgets_witness :
  process_image (ext := plain_externals) fair_weather front_door [x00]
  = process_image (ext := plain_externals) fair_weather front_door_busy [x00].
Proof.
  apply process_image_forgets; [by repeat split | reflexivity].
Defined.

Lemma process_image_fires_once_witness :
  length [Face.mk (u "alice") 90%float] ≤ 2.
Proof.
  destruct (process_image_fires_once (ext := plain_externals) fair_weather
              front_door [x00]) as [_ Hle].
  apply Hle. vm_compute. constructor.
Defined.

Lemma process_image_detect_only_event_witness :
  fired (trace (snd (process_image (ext := plain_externals) fair_weather
                       driveway [x00])))
  = [([], Some 1%nat)].
Proof.
  apply (process_image_detect_only_event (ext := plain_externals) fair_weather
           driveway [x00] [Prediction.mk None 0.5%float]);
    [reflexivity | reflexivity | discriminate | by repeat constructor].
Defined.

Lemma save_image_write_error_witness :
  save_image (ext := plain_externals) disk_full front_door [x00]
    (PathOf (u "/config/www"))
  = ([EvSave (PathOf (u "/config/www") // u "deepstack_face_front_door_latest.jpg")],
     Raised (Exn OSError (u "No space left on device"))).
Proof.
  destruct (save_image_write_error (ext := plain_externals) disk_full front_door
              [x00] (PathOf (u "/config/www"))
              (Exn OSError (u "No space left on device")) eq_refl) as [_ Hsecond].
  apply Hsecond; reflexivity.
Defined.

Lemma teach_allowed_path_witness :
  requests (trace (teach fair_weather front_door (u "alice")
                     (u "/config/www/alice.jpg")))
  = [EvRegisterFace (_dsface front_door) (u "alice") [x00]].
Proof.
  destruct (teach_allowed_path fair_weather front_door (u "alice")
              (u "/config/www/alice.jpg") eq_refl) as (_ & Hreq & _).
  exact Hreq.
Defined.

Lemma service_handle_selection_witness :
  ∃ j, entity_id garage = Some j
       ∧ j ∈ [u "image_processing.deepstack_face_garage"].
Proof.
  destruct (service_handle_selection fair_weather [porch; front_door; garage]
              (u "alice") (u "/config/www/alice.jpg")) as [_ Honly].
  apply Honly. vm_compute. constructor.
Defined.

Lemma attributes_after_detection_witness :
  state (fst (process_image (ext := plain_externals) fair_weather front_door [x00]))
  = Some 2%nat.
Proof.
  destruct (attributes_after_detection (ext := plain_externals) fair_weather
              front_door [x00] two_faces) as (_ & _ & _ & Hstate);
    [reflexivity | reflexivity | discriminate |].
  exact Hstate.
Defined.

Lemma setup_platform_ok_witness :
  ∃ entities,
    setup_platform (ext := splitting_externals) empty_hass cameras_config
    = (Hass.mk
         (<[DATA_DEEPSTACK := default [] (Hass.data empty_hass !! DATA_DEEPSTACK)
                              ++ entities]> (Hass.data empty_hass))
         (Hass.added empty_hass ++ [entities])
         (Hass.services empty_hass ++ [(DOMAIN, SERVICE_TEACH_FACE)]),
       Returned tt)
    ∧ Forall2 (λ camera self,
                 _camera self = camera_entity_id camera
                 ∧ fresh_of cameras_config self)
        (conf_source cameras_config) entities.
Proof.
  apply (setup_platform_ok (ext := splitting_externals) empty_hass cameras_config).
  constructor; [| constructor; [| constructor]].
  - right. vm_compute. by eexists.
  - left. reflexivity.
Defined.

Lemma setup_platform_bad_camera_witness :
  ∃ entities exc,
    setup_platform (ext := splitting_externals) empty_hass broken_config
    = (Hass.mk
         (<[DATA_DEEPSTACK := default [] (Hass.data empty_hass !! DATA_DEEPSTACK)
                              ++ entities]> (Hass.data empty_hass))
         (Hass.added empty_hass) (Hass.services empty_hass),
       Raised exc)
    ∧ exn_class exc = IndexError
    ∧ Forall2 (λ camera self,
                 _camera self = camera_entity_id camera
                 ∧ fresh_of broken_config self)
        [ {| camera_entity_id := u "camera.garden"; camera_name := None |} ]
        entities.
Proof.
  apply (setup_platform_bad_camera (ext := splitting_externals) empty_hass
           broken_config
           [ {| camera_entity_id := u "camera.garden"; camera_name := None |} ]
           [ {| camera_entity_id := u "camera.attic"; camera_name := None |} ]
           {| camera_entity_id := u "garage"; camera_name := None |}).
  - reflexivity.
  - constructor; [| constructor]. right. vm_compute. by eexists.
  - intros [Hname | [part Hpart]]; [discriminate | vm_compute in Hpart; discriminate].
Defined.

Lemma setup_platform_keeps_witness :
  Hass.data (fst (setup_platform (ext := splitting_externals) empty_hass
                    cameras_config)) !! "zwave"
  = Hass.data empty_hass !! "zwave".
Proof.
  destruct (setup_platform_keeps (ext := splitting_externals) empty_hass
              cameras_config) as [_ Hother].
  apply Hother. discriminate.
Defined.


Lemma setups_share_registry_witness :
  ∃ entities1 entities2,
    Hass.data two_platforms !! DATA_DEEPSTACK
    = Some (default [] (Hass.data empty_hass !! DATA_DEEPSTACK)
            ++ entities1 ++ entities2)
    ∧ length entities1 = 2%nat ∧ length entities2 = 2%nat.
Proof.
  destruct (setups_share_registry (ext := splitting_externals) empty_hass
              one_platform two_platforms cameras_config cameras_config)
    as (entities1 & entities2 & Hdata & Hlen1 & Hlen2 & _).
  - reflexivity.
  - reflexivity.
  - by exists entities1, entities2.
Defined.
